(** * SurveyUploader: the spreadsheet extractor and the Dataverse reconciliation loop

    A shallow embedding of [src/SurveyUploader/index.ts].  The file holds two
    copies of the [SurveyUploader] class; the first one (modal UI, layered
    lookup) is the component the specification describes, the second one is
    kept under [SecondCopy] for the comparison of the two [parseExcelData]
    implementations.

    Modelling conventions
    - a JavaScript string is a [string] whose characters are code units in the
      Latin-1 range; [trim] removes the ECMAScript white space and line
      terminators of that range (9-13, 32, 160) from both ends;
    - a thrown value is a [JsError]; a computation that may throw returns
      [JsError + A] ([inl] = thrown);
    - a Number is the rational it denotes; division and multiplication round
      their exact result to the nearest binary64 value ([fl]), and
      [Math.round] rounds a half towards plus infinity;
    - [console.log] and [console.error] calls are not observable and are left
      out; DOM updates are recorded as events of the trace. *)

From Stdlib Require Import String Ascii List ZArith QArith Qround Qpower Lia Lqa Bool Arith.
From Stdlib Require Import DecimalString.
From Stdlib Require Import PrimFloat FloatOps SpecFloat Uint63.
Import ListNotations.

Local Open Scope string_scope.
Local Open Scope list_scope.

(* ===================================================================== *)
(** ** JavaScript values used by the component *)
(* ===================================================================== *)

(** [String.prototype.trim]: white space and line terminators. *)
Definition is_ws (c : ascii) : bool :=
  match nat_of_ascii c with
  | 9%nat | 10%nat | 11%nat | 12%nat | 13%nat | 32%nat | 160%nat => true
  | _ => false
  end.

Fixpoint trimStart (s : string) : string :=
  match s with
  | EmptyString => EmptyString
  | String c s' => if is_ws c then trimStart s' else s
  end.

Fixpoint trimEnd (s : string) : string :=
  match s with
  | EmptyString => EmptyString
  | String c s' =>
      match trimEnd s' with
      | EmptyString => if is_ws c then EmptyString else String c EmptyString
      | t => String c t
      end
  end.

Definition trim (s : string) : string := trimEnd (trimStart s).

(** Truthiness of a string: [if (s)] holds exactly for the non-empty ones. *)
Definition truthy (s : string) : bool := negb (s =? "").

(** A thrown value: its [message] property (when it has one) and the result
    of its [toString()]. *)
Record JsError : Type := mkJsError {
  message : option string;
  toStr : string
}.

(** [new Error(msg)]. *)
Definition new_Error (msg : string) : JsError :=
  {| message := Some msg; toStr := "Error: " ++ msg |}.

(** The [TypeError] raised by a property access on [undefined] or [null]. *)
Definition TypeError (msg : string) : JsError :=
  {| message := Some msg; toStr := "TypeError: " ++ msg |}.

(** [a || b] on strings. *)
Definition or_else (a : option string) (b : string) : string :=
  match a with
  | Some s => if truthy s then s else b
  | None => b
  end.

(** Decimal rendering of an integer, as [Number.prototype.toString] and
    template literals render integer-valued numbers. *)
Definition string_of_Z (n : Z) : string := NilZero.string_of_int (Z.to_int n).
Definition string_of_nat (n : nat) : string := string_of_Z (Z.of_nat n).

(** A cell of the decoded sheet: absent, blank, text, a number or a boolean.
    [CNum] stands for the integer-valued numbers of magnitude below 10^21,
    which [toString()] renders in plain decimal; fractions and the numbers
    printed in exponent form are not represented. *)
Inductive Cell : Type :=
| CUndefined
| CNull
| CStr (s : string)
| CNum (n : Z)
| CBool (b : bool).

(** An element of [jsonData]: an array of cells, or some value that is not
    an array. *)
Inductive Row : Type :=
| RArray (cells : list Cell)
| RValue (v : Cell).

(** [row[i]]: reading past the end of an array yields [undefined]. *)
Definition at_ (cells : list Cell) (i : nat) : Cell := nth i cells CUndefined.

(** [c !== undefined && c !== null && c !== ""]. *)
Definition nonblank (c : Cell) : bool :=
  match c with
  | CUndefined | CNull => false
  | CStr s => negb (s =? "")
  | CNum _ | CBool _ => true
  end.

(** [c.toString()]; throws on [undefined] and [null]. *)
Definition toString (c : Cell) : JsError + string :=
  match c with
  | CUndefined => inl (TypeError "Cannot read properties of undefined (reading 'toString')")
  | CNull => inl (TypeError "Cannot read properties of null (reading 'toString')")
  | CStr s => inr s
  | CNum n => inr (string_of_Z n)
  | CBool true => inr "true"
  | CBool false => inr "false"
  end.

(** The [ExcelRow] interface. *)
Record ExcelRow : Type := mkExcelRow {
  ID : string;
  Response : string;
  Notes : string
}.

(** The [UpdateResult] interface; [error] is optional. *)
Record UpdateResult : Type := mkUpdateResult {
  success : bool;
  recordId : string;
  error : option string
}.

(* ===================================================================== *)
(** ** Computations that may throw *)
(* ===================================================================== *)

Module Exc.
Definition t (A : Type) : Type := (JsError + A)%type.
Definition ret {A} (a : A) : t A := inr a.
Definition throw {A} (e : JsError) : t A := inl e.
Definition bind {A B} (m : t A) (k : A -> t B) : t B :=
  match m with
  | inl e => inl e
  | inr a => k a
  end.
End Exc.

Declare Scope exc_scope.
Delimit Scope exc_scope with exc.
Notation "x <- m ;; k" := (Exc.bind m (fun x => k))
  (at level 61, m at next level, right associativity) : exc_scope.

(* ===================================================================== *)
(** ** TabularRecordExtractor: [parseExcelData] of the first copy *)
(* ===================================================================== *)

Definition EMPTY_INPUT_MESSAGE : string :=
  "Excel file must contain at least a header row and one data row".

Section Extractor.
Local Open Scope exc_scope.

(** [let id = ""; if (row[0] !== undefined && ...) id = row[0].toString().trim();] *)
Definition row_id (cells : list Cell) : Exc.t string :=
  if nonblank (at_ cells 0)
  then s <- toString (at_ cells 0) ;; Exc.ret (trim s)
  else Exc.ret "".

(** The [response] cascade: column 2, else column 1, else [""]. *)
Definition row_response (cells : list Cell) : Exc.t string :=
  if (2 <? length cells)%nat && nonblank (at_ cells 2)
  then s <- toString (at_ cells 2) ;; Exc.ret (trim s)
  else if (1 <? length cells)%nat && nonblank (at_ cells 1)
  then s <- toString (at_ cells 1) ;; Exc.ret (trim s)
  else Exc.ret "".

(** The [notes] cascade: column 3, else column 2 when [!response], else [""]. *)
Definition row_notes (cells : list Cell) (response : string) : Exc.t string :=
  if (3 <? length cells)%nat && nonblank (at_ cells 3)
  then s <- toString (at_ cells 3) ;; Exc.ret (trim s)
  else if (2 <? length cells)%nat && nonblank (at_ cells 2) && negb (truthy response)
  then s <- toString (at_ cells 2) ;; Exc.ret (trim s)
  else Exc.ret "".

(** One iteration of the loop body; [parsedData.push] appends at the end. *)
Definition parseRow (row : Row) (parsedData : list ExcelRow) : Exc.t (list ExcelRow) :=
  match row with
  | RArray cells =>
      if (1 <=? length cells)%nat then
        id <- row_id cells ;;
        response <- row_response cells ;;
        notes <- row_notes cells response ;;
        if truthy id
        then Exc.ret (parsedData ++ [ {| ID := id; Response := response; Notes := notes |} ])
        else Exc.ret parsedData
      else Exc.ret parsedData
  | RValue _ => Exc.ret parsedData
  end.

(** [for (let i = 1; i < jsonData.length; i++)], over the rows still to visit. *)
Fixpoint parseRows (rows : list Row) (parsedData : list ExcelRow) : Exc.t (list ExcelRow) :=
  match rows with
  | [] => Exc.ret parsedData
  | row :: rest => parsedData' <- parseRow row parsedData ;; parseRows rest parsedData'
  end.

Definition parseExcelData (jsonData : list Row) : Exc.t (list ExcelRow) :=
  if (length jsonData <? 2)%nat
  then Exc.throw (new_Error EMPTY_INPUT_MESSAGE)
  else parseRows (skipn 1 jsonData) [].
End Extractor.

(* ===================================================================== *)
(** ** [parseExcelData] of the second copy of the class *)
(* ===================================================================== *)

Module SecondCopy.

(** [row[i]] on any value: an array element, a one-character string, or
    [undefined]. *)
Definition index (row : Row) (i : nat) : Cell :=
  match row with
  | RArray cells => at_ cells i
  | RValue (CStr s) =>
      match String.get i s with
      | Some c => CStr (String c EmptyString)
      | None => CUndefined
      end
  | RValue _ => CUndefined
  end.

(** [row && row.length >= 3]: an array is always truthy, a string has a
    length, no other value has one. *)
Definition long_enough (row : Row) : bool :=
  match row with
  | RArray cells => (3 <=? length cells)%nat
  | RValue (CStr s) => (3 <=? String.length s)%nat
  | RValue _ => false
  end.

(** [c?.toString() || ""]. *)
Definition text_or_empty (c : Cell) : string :=
  match toString c with
  | inr s => or_else (Some s) ""
  | inl _ => ""
  end.

Definition parseRow (row : Row) (parsedData : list ExcelRow) : list ExcelRow :=
  if long_enough row
  then parsedData ++ [ {| ID := text_or_empty (index row 0);
                          Response := text_or_empty (index row 2);
                          Notes := text_or_empty (index row 3) |} ]
  else parsedData.

Fixpoint parseRows (rows : list Row) (parsedData : list ExcelRow) : list ExcelRow :=
  match rows with
  | [] => parsedData
  | row :: rest => parseRows rest (parseRow row parsedData)
  end.

Definition parseExcelData (jsonData : list Row) : Exc.t (list ExcelRow) :=
  if (length jsonData <? 2)%nat
  then Exc.throw (new_Error EMPTY_INPUT_MESSAGE)
  else Exc.ret (parseRows (skipn 1 jsonData) []).

End SecondCopy.

(* ===================================================================== *)
(** ** ReconciliationEngine: the remote store, the UI and the trace *)
(* ===================================================================== *)

(** An entity returned by the store: the two selected attributes. *)
Record Entity : Type := mkEntity {
  afsdc_questionresponseinstanceid : string;
  afsdc_name : string
}.

(** [ComponentFramework.WebApi.RetrieveMultipleResponse]. *)
Record RetrieveMultipleResponse : Type := mkResponse {
  entities : list Entity
}.

(** The [updateData] object: its own properties in insertion order. *)
Definition UpdateData : Type := list (string * string).

Inductive Severity : Type := SevInfo | SevSuccess | SevError.

(** What the component does to the outside world, in the order it does it.
    A remote call is recorded with the way it settled ([inl] = rejected). *)
Inductive Event : Type :=
| EvRetrieve (entityType options : string)
             (settled : JsError + option RetrieveMultipleResponse)
| EvUpdate (entityType id : string) (data : UpdateData) (settled : JsError + unit)
| EvShowStatus (msg : string) (type : Severity)
| EvShowModal
| EvModalStatus (msg : string) (type : Severity)
| EvModalProgress (percentage : Z)
| EvModalResults (successCount failureCount : nat) (failed : list UpdateResult)
| EvModalFooter.

Definition PRIMARY : string := "afsdc_questionresponseinstances".
Definition ALTERNATE : string := "afsdc_questionresponseinstance".

Definition query1 (cleanId : string) : string :=
  "?$filter=afsdc_name eq '" ++ cleanId
  ++ "'&$select=afsdc_questionresponseinstanceid,afsdc_name".

Definition query3 : string :=
  "?$select=afsdc_questionresponseinstanceid,afsdc_name&$top=5".

(** *** Numbers

    A Number is modelled by the rational it denotes.  [/] and [*] are the
    exact operation followed by [fl], the rounding to the nearest binary64
    value: 53 significant bits, ties to even.  The exponent range is not
    limited; the quantities rounded here lie between 2^-32 and 100, far from
    overflow and underflow.  Array indices and lengths are integers below
    2^32 and are exact. *)

(** Round to the nearest integer, ties to even. *)
Definition rne (x : Q) : Z :=
  let f := Qfloor x in
  match Qcompare (x - inject_Z f) (1 # 2) with
  | Lt => f
  | Gt => (f + 1)%Z
  | Eq => if Z.even f then f else (f + 1)%Z
  end.

(** [floor (log2 x)] for a positive rational [x]. *)
Definition binade (x : Q) : Z :=
  let d := (Z.log2 (Qnum x) - Z.log2 (Zpos (Qden x)))%Z in
  if Qle_bool (2 ^ d) x then d else (d - 1)%Z.

(** The nearest binary64 value of a positive rational: the significand is
    scaled into [2^52, 2^53] and rounded to an integer. *)
Definition fl_pos (x : Q) : Q :=
  inject_Z (rne (x * 2 ^ (52 - binade x))) * 2 ^ (binade x - 52).

Definition fl (x : Q) : Q :=
  match Qnum x with
  | Z0 => 0
  | Zpos _ => fl_pos x
  | Zneg _ => - fl_pos (- x)
  end.

(** [a / b] and [a * b] on Numbers. *)
Definition js_div (a b : Q) : Q := fl (a / b).
Definition js_mul (a b : Q) : Q := fl (a * b).

(** The Number of an index or a length. *)
Definition number_of_nat (n : nat) : Q := inject_Z (Z.of_nat n).

(** The same product computed with the kernel's binary64 numbers, read
    back as a rational; used to test [fl] against the hardware format. *)
Definition double_to_Q (f : float) : Q :=
  match Prim2SF f with
  | S754_finite s m e => (if s then -1 else 1) * inject_Z (Zpos m) * 2 ^ e
  | _ => 0
  end.

Definition double_of_nat (n : nat) : float :=
  PrimFloat.of_uint63 (Uint63.of_Z (Z.of_nat n)).

Definition binary64_percent (k N : nat) : Q :=
  double_to_Q (PrimFloat.mul (PrimFloat.div (double_of_nat k) (double_of_nat N))
                             (double_of_nat 100)).

(** [fl] gives the binary64 result for every record [k] of every batch of
    up to [n] records. *)
Definition fl_agrees_upto (n : nat) : bool :=
  forallb (fun N =>
             forallb (fun k =>
                        Qeq_bool (binary64_percent k N)
                                 (js_mul (js_div (number_of_nat k) (number_of_nat N)) 100))
                     (seq 1 N))
          (seq 1 n).

(** [Math.round]: the nearest integer, a half going up. *)
Definition Math_round (q : Q) : Z := Qfloor (q + (1 # 2)).

(** [Math.round(((i + 1) / totalRecords) * 100)]. *)
Definition progress_of (i totalRecords : nat) : Z :=
  Math_round (js_mul (js_div (number_of_nat (i + 1)) (number_of_nat totalRecords)) 100).

(** [`Processing record ${i + 1} of ${totalRecords}: ${row.ID}`]. *)
Definition processing_message (i totalRecords : nat) (row : ExcelRow) : string :=
  "Processing record " ++ string_of_nat (i + 1) ++ " of "
  ++ string_of_nat totalRecords ++ ": " ++ ID row.

Declare Scope io_scope.
Delimit Scope io_scope with io.

(** The remote store behind [this._context.webAPI]: any state machine.
    Each call may reject ([inl]), and may change the store. *)
Class WebApi (Remote : Type) : Type := {
  webAPI_retrieveMultipleRecords :
    string -> string -> Remote -> (JsError + option RetrieveMultipleResponse) * Remote;
  webAPI_updateRecord :
    string -> string -> UpdateData -> Remote -> (JsError + unit) * Remote
}.

(** The state the component runs in: the store, the [_parsedData] field
    and everything done so far. *)
Record World (Remote : Type) : Type := mkWorld {
  remote : Remote;
  _parsedData : list ExcelRow;
  trace : list Event
}.

Arguments mkWorld {Remote} _ _ _.
Arguments remote {Remote} _.
Arguments _parsedData {Remote} _.
Arguments trace {Remote} _.

Section Engine.

Context {Remote : Type} {webAPI : WebApi Remote}.

(** A computation in that state that may throw; effects made before a
    throw stay made. *)
Definition IO (A : Type) : Type := World Remote -> (JsError + A) * World Remote.

Definition ret {A} (a : A) : IO A := fun w => (inr a, w).
Definition throw {A} (e : JsError) : IO A := fun w => (inl e, w).
Definition bind {A B} (m : IO A) (k : A -> IO B) : IO B :=
  fun w => match m w with
           | (inl e, w') => (inl e, w')
           | (inr a, w') => k a w'
           end.
(** [try { m } catch (e) { h e }]. *)
Definition try_catch {A} (m : IO A) (h : JsError -> IO A) : IO A :=
  fun w => match m w with
           | (inl e, w') => h e w'
           | (inr a, w') => (inr a, w')
           end.

Notation "x <- m ;; k" := (bind m (fun x => k))
  (at level 61, m at next level, right associativity) : io_scope.
Notation "m ;;; k" := (bind m (fun _ => k))
  (at level 61, right associativity) : io_scope.
Local Open Scope io_scope.

Definition emit (ev : Event) : IO unit :=
  fun w => (inr tt, {| remote := remote w; _parsedData := _parsedData w;
                       trace := trace w ++ [ev] |}).

Definition get_parsedData : IO (list ExcelRow) := fun w => (inr (_parsedData w), w).
Definition set_parsedData (d : list ExcelRow) : IO unit :=
  fun w => (inr tt, {| remote := remote w; _parsedData := d; trace := trace w |}).

(** [await this._context.webAPI.retrieveMultipleRecords(entityType, options)]. *)
Definition retrieveMultipleRecords (entityType options : string)
  : IO (option RetrieveMultipleResponse) :=
  fun w =>
    let (r, s) := webAPI_retrieveMultipleRecords entityType options (remote w) in
    (r, {| remote := s; _parsedData := _parsedData w;
           trace := trace w ++ [EvRetrieve entityType options r] |}).

(** [await this._context.webAPI.updateRecord(entityType, id, data)]. *)
Definition updateRecord (entityType id : string) (data : UpdateData) : IO unit :=
  fun w =>
    let (r, s) := webAPI_updateRecord entityType id data (remote w) in
    (r, {| remote := s; _parsedData := _parsedData w;
           trace := trace w ++ [EvUpdate entityType id data r] |}).

Definition showStatus (msg : string) (type : Severity) : IO unit := emit (EvShowStatus msg type).
Definition showModal : IO unit := emit EvShowModal.
Definition updateModalStatus (msg : string) (type : Severity) : IO unit :=
  emit (EvModalStatus msg type).
Definition updateModalProgress (percentage : Z) : IO unit := emit (EvModalProgress percentage).
Definition showModalFooter : IO unit := emit EvModalFooter.

(** The lookup phase of [updateDataverseRecord]: the three nested [try]
    blocks.  [inl r] is an early [return r] from inside a [catch];
    [inr resp] is the value left in [retrieveResponse]. *)
Definition lookup (row : ExcelRow) (cleanId : string)
  : IO (UpdateResult + option RetrieveMultipleResponse) :=
  try_catch
    (retrieveResponse <- retrieveMultipleRecords PRIMARY (query1 cleanId) ;;
     ret (inr retrieveResponse))
    (fun error1 =>
       try_catch
         (retrieveResponse <- retrieveMultipleRecords ALTERNATE (query1 cleanId) ;;
          ret (inr retrieveResponse))
         (fun error2 =>
            try_catch
              (testResponse <- retrieveMultipleRecords PRIMARY query3 ;;
               ret (inl {| success := false; recordId := ID row;
                           error := Some ("Record '" ++ cleanId
                                          ++ "' not found in entity")%string |}))
              (fun error3 =>
                 ret (inl {| success := false; recordId := ID row;
                             error := Some ("Entity access error: "
                                            ++ or_else (message error3)
                                                 "Unknown error")%string |})))).

(** The payload phase: only the fields that are non-empty after trimming. *)
Definition build_updateData (row : ExcelRow) : UpdateData :=
  let updateData : UpdateData := [] in
  let updateData :=
    if truthy (Response row) && negb (trim (Response row) =? "")
    then updateData ++ [("afsdc_response", trim (Response row))] else updateData in
  let updateData :=
    if truthy (Notes row) && negb (trim (Notes row) =? "")
    then updateData ++ [("afsdc_comments", trim (Notes row))] else updateData in
  updateData.

(** The body of the outer [try] block. *)
Definition updateDataverseRecord_try (row : ExcelRow) : IO UpdateResult :=
  let cleanId := trim (ID row) in
  found <- lookup row cleanId ;;
  match found with
  | inl early => ret early
  | inr retrieveResponse =>
      match retrieveResponse with
      | None =>
          ret {| success := false; recordId := ID row;
                 error := Some ("Record not found: '" ++ cleanId ++ "'")%string |}
      | Some response =>
          match entities response with
          | [] =>
              ret {| success := false; recordId := ID row;
                     error := Some ("Record not found: '" ++ cleanId ++ "'")%string |}
          | existingRecord :: _ =>
              let updateData := build_updateData row in
              if (length updateData =? 0)%nat
              then ret {| success := false; recordId := ID row;
                          error := Some "No data to update (Response and Notes are empty)" |}
              else
                updateRecord ALTERNATE
                  (afsdc_questionresponseinstanceid existingRecord) updateData ;;;
                ret {| success := true; recordId := ID row; error := None |}
          end
      end
  end.

Definition updateDataverseRecord (row : ExcelRow) : IO UpdateResult :=
  try_catch (updateDataverseRecord_try row)
    (fun error =>
       ret {| success := false; recordId := ID row;
              error := Some ("Update failed: "
                             ++ or_else (message error)
                                  (or_else (Some (toStr error)) "Unknown error"))%string |}).

(** [displayModalResults]: the summary (counts and the failed outcomes in
    order), the closing status line and the footer. *)
Definition displayModalResults (results : list UpdateResult) : IO unit :=
  let successCount := length (filter (fun r => success r) results) in
  let failureCount := length (filter (fun r => negb (success r)) results) in
  emit (EvModalResults successCount failureCount
          (filter (fun r => negb (success r)) results)) ;;;
  (if (0 <? successCount)%nat
   then updateModalStatus
          ("Successfully updated " ++ string_of_nat successCount ++ " records!") SevSuccess
   else updateModalStatus "No records were updated" SevError) ;;;
  showModalFooter.

(** The [for] loop of [processDataverseUpdates], over the records from
    index [i] on.  Nothing after [results.push(result)] can throw, so the
    array the [catch] block pushes to is the one the iteration started
    with. *)
Fixpoint processLoop (rows : list ExcelRow) (i totalRecords : nat)
         (results : list UpdateResult) : IO (list UpdateResult) :=
  match rows with
  | [] => ret results
  | row :: rest =>
      updateModalStatus (processing_message i totalRecords row) SevInfo ;;;
      results' <-
        try_catch
          (result <- updateDataverseRecord row ;;
           updateModalProgress (progress_of i totalRecords) ;;;
           ret (results ++ [result]))
          (fun error =>
             ret (results ++ [ {| success := false; recordId := ID row;
                                  error := Some (or_else (Some (toStr error))
                                                   "Unknown error") |} ])) ;;
      processLoop rest (S i) totalRecords results'
  end.

(** [processDataverseUpdates]; the value returned is the [results] array
    handed to [displayModalResults] ([[]] when the method returns early). *)
Definition processDataverseUpdates : IO (list UpdateResult) :=
  parsedData <- get_parsedData ;;
  if (length parsedData =? 0)%nat
  then updateModalStatus "No data to process" SevError ;;;
       showModalFooter ;;;
       ret []
  else
    results <- processLoop parsedData 0 (length parsedData) [] ;;
    displayModalResults results ;;;
    ret results.

(** Lifting of a computation that only may throw. *)
Definition lift {A} (m : Exc.t A) : IO A := fun w => (m, w).

(** [uploadAndProcessFile].  [file] is [None] when no file is selected;
    otherwise it carries what reading the file and decoding its first
    visible sheet gives: the grid, or the error thrown on the way. *)
Definition uploadAndProcessFile (file : option (Exc.t (list Row))) : IO unit :=
  match file with
  | None => showStatus "Please select a file first" SevError
  | Some decoded =>
      showModal ;;;
      updateModalStatus "Parsing Excel file..." SevInfo ;;;
      updateModalProgress 0 ;;;
      try_catch
        (jsonData <- lift decoded ;;
         updateModalProgress 30 ;;;
         parsedData <- lift (parseExcelData jsonData) ;;
         set_parsedData parsedData ;;;
         (if (length parsedData =? 0)%nat
          then throw (new_Error
                 "No valid data found in Excel file. Please check your file format.")
          else ret tt) ;;;
         updateModalProgress 50 ;;;
         updateModalStatus
           ("Found " ++ string_of_nat (length parsedData)
            ++ " records to process. Starting updates...") SevInfo ;;;
         processDataverseUpdates ;;;
         ret tt)
        (fun error =>
           updateModalStatus ("Error: " ++ toStr error) SevError ;;;
           showModalFooter)
  end.

(** The events a computation adds to the trace. *)
Definition new_events (before after : World Remote) : list Event :=
  skipn (length (trace before)) (trace after).

End Engine.

(** Projections of a trace. *)
Definition progress_values (evs : list Event) : list Z :=
  flat_map (fun ev => match ev with EvModalProgress p => [p] | _ => [] end) evs.

Definition is_update (ev : Event) : bool :=
  match ev with EvUpdate _ _ _ _ => true | _ => false end.

Definition is_remote (ev : Event) : bool :=
  match ev with EvRetrieve _ _ _ | EvUpdate _ _ _ _ => true | _ => false end.

(* ===================================================================== *)
(** ** Vocabulary of the statements *)
(* ===================================================================== *)

(** A row has the id [id]: it is an array, it has a first column, and that
    column stringifies and trims to the non-empty [id]. *)
Definition has_id (row : Row) (id : string) : Prop :=
  exists c rest s,
    row = RArray (c :: rest) /\ toString c = inr s /\ trim s = id /\ id <> "".

(** What one data row contributes: a record, or nothing. *)
Definition emission (row : Row) (e : option ExcelRow) : Prop :=
  match e with
  | Some r => has_id row (ID r)
  | None => forall id, ~ has_id row id
  end.

Definition olist {A} (o : option A) : list A :=
  match o with Some a => [a] | None => [] end.

(** The text of a cell that is present and is not the empty string
    (emptiness is tested on the cell as it is, before any trimming). *)
Definition cell_text (c : option Cell) : option string :=
  match c with
  | Some (CStr s) => if s =? "" then None else Some s
  | Some (CNum n) => Some (string_of_Z n)
  | Some (CBool true) => Some "true"
  | Some (CBool false) => Some "false"
  | Some CUndefined | Some CNull | None => None
  end.

(** The response rule of the code, in words: column 2 when present and not
    the empty string, else column 1 when present and not the empty string,
    else the empty string; the chosen text is trimmed. *)
Definition response_rule (cells : list Cell) : string :=
  match cell_text (nth_error cells 2) with
  | Some s => trim s
  | None =>
      match cell_text (nth_error cells 1) with
      | Some s => trim s
      | None => ""
      end
  end.

(** The text of a cell that is present and non-empty after trimming. *)
Definition trimmed_text (c : option Cell) : option string :=
  match c with
  | Some c' =>
      match toString c' with
      | inr s => if truthy (trim s) then Some (trim s) else None
      | inl _ => None
      end
  | None => None
  end.

(** The response rule as the specification words it: emptiness is judged
    after trimming. *)
Definition claimed_response (cells : list Cell) : string :=
  match trimmed_text (nth_error cells 2) with
  | Some t => t
  | None =>
      match trimmed_text (nth_error cells 1) with
      | Some t => t
      | None => ""
      end
  end.

(** A cell holding non-empty text without surrounding white space. *)
Definition tidy (c : Cell) : bool :=
  match c with
  | CStr s => (trim s =? s) && negb (s =? "")
  | _ => false
  end.

(** A cell that is absent, blank, or text without surrounding white space. *)
Definition tidy_or_blank (c : Cell) : bool :=
  match c with
  | CUndefined | CNull => true
  | CStr s => trim s =? s
  | _ => false
  end.

(** A row in the four-column layout both copies read alike: an array of at
    least three cells, tidy text in columns 0 and 2, column 3 tidy or blank. *)
Definition regular (row : Row) : bool :=
  match row with
  | RArray cells =>
      (3 <=? length cells)%nat && tidy (at_ cells 0) && tidy (at_ cells 2)
      && tidy_or_blank (at_ cells 3)
  | RValue _ => false
  end.



(** The filtered queries sent to the primary collection: the first lookup
    of each record (the unfiltered probe is not one of them). *)
Definition primary_lookups (evs : list Event) : list string :=
  flat_map (fun ev =>
              match ev with
              | EvRetrieve e q _ =>
                  if (e =? PRIMARY) && String.prefix "?$filter=" q then [q] else []
              | _ => []
              end) evs.

(** The outcome categories, as the object literals of [updateDataverseRecord]. *)
Inductive Outcome (row : ExcelRow) : UpdateResult -> Prop :=
| O_Updated :
    Outcome row {| success := true; recordId := ID row; error := None |}
| O_NotFound_probed :
    Outcome row {| success := false; recordId := ID row;
                   error := Some ("Record '" ++ trim (ID row) ++ "' not found in entity")%string |}
| O_AccessError (error3 : JsError) :
    Outcome row {| success := false; recordId := ID row;
                   error := Some ("Entity access error: "
                                  ++ or_else (message error3) "Unknown error")%string |}
| O_NotFound :
    Outcome row {| success := false; recordId := ID row;
                   error := Some ("Record not found: '" ++ trim (ID row) ++ "'")%string |}
| O_NoOpError :
    Outcome row {| success := false; recordId := ID row;
                   error := Some "No data to update (Response and Notes are empty)" |}
| O_UpdateFailed (e : JsError) :
    Outcome row {| success := false; recordId := ID row;
                   error := Some ("Update failed: "
                                  ++ or_else (message e)
                                       (or_else (Some (toStr e)) "Unknown error"))%string |}.

(** The trace of the record loop: for each record in turn, the status
    line announcing it, the remote calls made for it, and then its progress
    value [Math.round(((i + 1) / N) * 100)]. *)
Inductive RecordRuns (N : nat) : nat -> list ExcelRow -> list Event -> Prop :=
| RR_done (i : nat) : RecordRuns N i [] []
| RR_record (i : nat) (row : ExcelRow) (rows : list ExcelRow)
            (calls evs : list Event) :
    forallb is_remote calls = true ->
    RecordRuns N (S i) rows evs ->
    RecordRuns N i (row :: rows)
      (EvModalStatus (processing_message i N row) SevInfo
       :: calls ++ EvModalProgress (progress_of i N) :: evs).

(** [displayModalResults] adds three events and cannot throw. *)
Definition closing_events (results : list UpdateResult) : list Event :=
  [EvModalResults (length (filter (fun r => success r) results))
                  (length (filter (fun r => negb (success r)) results))
                  (filter (fun r => negb (success r)) results);
   (if (0 <? length (filter (fun r => success r) results))%nat
    then EvModalStatus
           ("Successfully updated "
            ++ string_of_nat (length (filter (fun r => success r) results))
            ++ " records!") SevSuccess
    else EvModalStatus "No records were updated" SevError);
   EvModalFooter].

(* ===================================================================== *)
(** ** A small concrete store, for running the model *)
(* ===================================================================== *)

Module Demo.

(** The store holds the names of its entities.  The plural collection
    name is not known to it (every call on it is rejected); the singular
    one answers the filter query with the matching entities. *)
Definition Store : Type := list string.

Definition transport_error : JsError :=
  {| message := Some "Resource not found for the segment"; toStr := "[object Object]" |}.

Definition retrieve (entityType options : string) (s : Store)
  : (JsError + option RetrieveMultipleResponse) * Store :=
  if entityType =? ALTERNATE
  then (inr (Some {| entities :=
               map (fun n => {| afsdc_questionresponseinstanceid := "guid-" ++ n;
                                afsdc_name := n |})
                   (filter (fun n => options =? query1 n) s) |}), s)
  else (inl transport_error, s).

Definition update (entityType id : string) (data : UpdateData) (s : Store)
  : (JsError + unit) * Store :=
  (inr tt, s).

#[global] Instance webAPI : WebApi Store := {|
  webAPI_retrieveMultipleRecords := retrieve;
  webAPI_updateRecord := update
|}.

Definition world (s : Store) (d : list ExcelRow) : World Store :=
  mkWorld s d [].

(** Three records: the first two are in the store, the third is not. *)
Definition batch : World Store :=
  world ["A1"; "A2"]
        [ {| ID := "A1"; Response := "R"; Notes := "N" |};
          {| ID := "A2"; Response := ""; Notes := "" |};
          {| ID := "A3"; Response := "x"; Notes := "" |} ].

(** A sheet with a header and three data rows. *)
Definition sheet : list Row :=
  [RArray [CStr "ID"; CStr "Q"; CStr "Resp"; CStr "Notes"];
   RArray [CStr "A1"; CStr ""; CStr "R"; CStr "N"];
   RArray [CStr "A2"];
   RArray [CStr "A3"; CStr "x"]].

End Demo.

(* ===================================================================== *)
(** ** The choice of the sheet in [uploadAndProcessFile] *)
(* ===================================================================== *)

(** An entry of [workbook.Workbook.Sheets]; its [Hidden] property may be
    missing. *)
Record SheetMeta : Type := mkSheetMeta {
  Hidden : option Z
}.

(** What the sheet loop reads of the workbook: [SheetNames] and
    [Workbook?.Sheets] ([None] when [Workbook] or [Sheets] is missing). *)
Record WorkBook : Type := mkWorkBook {
  SheetNames : list string;
  Workbook_Sheets : option (list SheetMeta)
}.

(** [names.indexOf(name)]; [None] stands for -1. *)
Fixpoint indexOf (name : string) (names : list string) : option nat :=
  match names with
  | [] => None
  | n :: rest => if n =? name then Some 0%nat else option_map S (indexOf name rest)
  end.

(** [workbook.Workbook?.Sheets?.[sheetIndex]?.Hidden !== undefined]. *)
Definition isHidden (workbook : WorkBook) (sheetName : string) : bool :=
  match indexOf sheetName (SheetNames workbook), Workbook_Sheets workbook with
  | Some sheetIndex, Some sheets =>
      match nth_error sheets sheetIndex with
      | Some meta => match Hidden meta with Some _ => true | None => false end
      | None => false
      end
  | _, _ => false
  end.

(** The [for ... of] loop with its [break], over the names still to visit. *)
Fixpoint first_not_hidden (workbook : WorkBook) (names : list string)
         (targetSheetName : option string) : option string :=
  match names with
  | [] => targetSheetName
  | sheetName :: rest =>
      if negb (isHidden workbook sheetName)
      then Some sheetName
      else first_not_hidden workbook rest targetSheetName
  end.

(** [let targetSheetName = workbook.SheetNames[0]] and the loop; [None] is
    [undefined]. *)
Definition targetSheetName (workbook : WorkBook) : option string :=
  first_not_hidden workbook (SheetNames workbook) (hd_error (SheetNames workbook)).

(* ===================================================================== *)
(** ** The second copy of the class: parsing, preview and updates *)
(* ===================================================================== *)

Module SecondCopyEngine.

Inductive Event : Type :=
| EvRetrieve (entityType options : string)
             (settled : JsError + option RetrieveMultipleResponse)
| EvUpdate (entityType id : string) (data : UpdateData) (settled : JsError + unit)
| EvShowStatus (msg : string) (type : Severity)
| EvShowProgress (percentage : Z)
| EvHideProgress
| EvDataPreview (previewRows : list ExcelRow) (more : option nat)
| EvResults (successCount failureCount : nat) (failed : list UpdateResult).

Record World (Remote : Type) : Type := mkWorld {
  remote : Remote;
  _parsedData : list ExcelRow;
  trace : list Event
}.

Arguments mkWorld {Remote} _ _ _.
Arguments remote {Remote} _.
Arguments _parsedData {Remote} _.
Arguments trace {Remote} _.

Section WithStore.

Context {Remote : Type} {webAPI : WebApi Remote}.

Definition IO (A : Type) : Type := World Remote -> (JsError + A) * World Remote.

Definition ret {A} (a : A) : IO A := fun w => (inr a, w).
Definition throw {A} (e : JsError) : IO A := fun w => (inl e, w).
Definition bind {A B} (m : IO A) (k : A -> IO B) : IO B :=
  fun w => match m w with
           | (inl e, w') => (inl e, w')
           | (inr a, w') => k a w'
           end.
Definition try_catch {A} (m : IO A) (h : JsError -> IO A) : IO A :=
  fun w => match m w with
           | (inl e, w') => h e w'
           | (inr a, w') => (inr a, w')
           end.
Definition lift {A} (m : Exc.t A) : IO A := fun w => (m, w).

Notation "x <- m ;; k" := (bind m (fun x => k))
  (at level 61, m at next level, right associativity) : io_scope.
Notation "m ;;; k" := (bind m (fun _ => k))
  (at level 61, right associativity) : io_scope.
Local Open Scope io_scope.

Definition emit (ev : Event) : IO unit :=
  fun w => (inr tt, {| remote := remote w; _parsedData := _parsedData w;
                       trace := trace w ++ [ev] |}).

Definition get_parsedData : IO (list ExcelRow) := fun w => (inr (_parsedData w), w).
Definition set_parsedData (d : list ExcelRow) : IO unit :=
  fun w => (inr tt, {| remote := remote w; _parsedData := d; trace := trace w |}).

Definition retrieveMultipleRecords (entityType options : string)
  : IO (option RetrieveMultipleResponse) :=
  fun w =>
    let (r, s) := webAPI_retrieveMultipleRecords entityType options (remote w) in
    (r, {| remote := s; _parsedData := _parsedData w;
           trace := trace w ++ [EvRetrieve entityType options r] |}).

Definition updateRecord (entityType id : string) (data : UpdateData) : IO unit :=
  fun w =>
    let (r, s) := webAPI_updateRecord entityType id data (remote w) in
    (r, {| remote := s; _parsedData := _parsedData w;
           trace := trace w ++ [EvUpdate entityType id data r] |}).

Definition showStatus (msg : string) (type : Severity) : IO unit := emit (EvShowStatus msg type).
Definition showProgress (percentage : Z) : IO unit := emit (EvShowProgress percentage).
Definition hideProgress : IO unit := emit EvHideProgress.

(** [displayDataPreview]: the first five rows, and the number of the
    remaining ones when there are more than five. *)
Definition displayDataPreview : IO unit :=
  parsedData <- get_parsedData ;;
  emit (EvDataPreview (firstn 5 parsedData)
          (if (5 <? length parsedData)%nat then Some (length parsedData - 5)%nat else None)).

(** [uploadAndParseFile]; [file] as for the first copy. *)
Definition uploadAndParseFile (file : option (Exc.t (list Row))) : IO unit :=
  match file with
  | None => showStatus "Please select a file first" SevError
  | Some decoded =>
      showStatus "Parsing Excel file..." SevInfo ;;;
      showProgress 0 ;;;
      try_catch
        (jsonData <- lift decoded ;;
         showProgress 50 ;;;
         parsedData <- lift (SecondCopy.parseExcelData jsonData) ;;
         set_parsedData parsedData ;;;
         showProgress 100 ;;;
         showStatus ("Successfully parsed " ++ string_of_nat (length parsedData)
                     ++ " records") SevSuccess ;;;
         displayDataPreview ;;;
         hideProgress)
        (fun error =>
           showStatus ("Error parsing file: " ++ toStr error) SevError ;;;
           hideProgress)
  end.

(** [`?$filter=afsdc_name eq '${row.ID}'`]. *)
Definition query (row : ExcelRow) : string :=
  "?$filter=afsdc_name eq '" ++ ID row ++ "'".

(** The [updateData] literal: both fields, whatever they hold. *)
Definition updateData_of (row : ExcelRow) : UpdateData :=
  [("afsdc_response", Response row); ("afsdc_comments", Notes row)].

(** [updateDataverseRecord]; reading [entities] of a missing response
    throws inside the [try] block. *)
Definition updateDataverseRecord (row : ExcelRow) : IO UpdateResult :=
  try_catch
    (retrieveResponse <- retrieveMultipleRecords ALTERNATE (query row) ;;
     match retrieveResponse with
     | None => throw (TypeError "Cannot read properties of null (reading 'entities')")
     | Some response =>
         match entities response with
         | [] => ret {| success := false; recordId := ID row;
                        error := Some "Record not found" |}
         | existingRecord :: _ =>
             updateRecord ALTERNATE (afsdc_questionresponseinstanceid existingRecord)
               (updateData_of row) ;;;
             ret {| success := true; recordId := ID row; error := None |}
         end
     end)
    (fun error =>
       ret {| success := false; recordId := ID row;
              error := Some (or_else (Some (toStr error)) "Update failed") |}).

(** [displayResults]: the summary and the closing status line. *)
Definition displayResults (results : list UpdateResult) : IO unit :=
  let successCount := length (filter (fun r => success r) results) in
  let failureCount := length (filter (fun r => negb (success r)) results) in
  emit (EvResults successCount failureCount
          (filter (fun r => negb (success r)) results)) ;;;
  (if (0 <? successCount)%nat
   then showStatus ("Successfully updated " ++ string_of_nat successCount ++ " records")
          SevSuccess
   else showStatus "No records were updated" SevError).

Fixpoint processLoop (rows : list ExcelRow) (i totalRecords : nat)
         (results : list UpdateResult) : IO (list UpdateResult) :=
  match rows with
  | [] => ret results
  | row :: rest =>
      results' <-
        try_catch
          (result <- updateDataverseRecord row ;;
           showProgress (progress_of i totalRecords) ;;;
           ret (results ++ [result]))
          (fun error =>
             ret (results ++ [ {| success := false; recordId := ID row;
                                  error := Some (or_else (Some (toStr error))
                                                   "Unknown error") |} ])) ;;
      processLoop rest (S i) totalRecords results'
  end.

(** [processDataverseUpdates]; the value returned is the [results] array
    ([[]] when the method returns early). *)
Definition processDataverseUpdates : IO (list UpdateResult) :=
  parsedData <- get_parsedData ;;
  if (length parsedData =? 0)%nat
  then showStatus "No data to process" SevError ;;; ret []
  else
    showStatus "Updating Dataverse records..." SevInfo ;;;
    showProgress 0 ;;;
    results <- processLoop parsedData 0 (length parsedData) [] ;;
    hideProgress ;;;
    displayResults results ;;;
    ret results.

Definition new_events (before after : World Remote) : list Event :=
  skipn (length (trace before)) (trace after).

End WithStore.

Definition progress_values (evs : list Event) : list Z :=
  flat_map (fun ev => match ev with EvShowProgress p => [p] | _ => [] end) evs.

Definition is_remote (ev : Event) : bool :=
  match ev with EvRetrieve _ _ _ | EvUpdate _ _ _ _ => true | _ => false end.

End SecondCopyEngine.

(* ===================================================================== *)
(** ** The runs of one record and of the record loop (first copy) *)
(* ===================================================================== *)

(** A string that does not begin with white space. *)
Definition starts_clean (s : string) : Prop :=
  match s with
  | EmptyString => True
  | String c _ => is_ws c = false
  end.

Definition is_results (ev : Event) : bool :=
  match ev with EvModalResults _ _ _ => true | _ => false end.

(** A field of an update payload as the first copy sends it: one of the two
    attributes, holding a non-empty text free of surrounding white space. *)
Definition filled_field (kv : string * string) : Prop :=
  (fst kv = "afsdc_response" \/ fst kv = "afsdc_comments")
  /\ snd kv <> "" /\ trim (snd kv) = snd kv.

(** Two rows that differ at most in column 1. *)
Inductive same_but_column_1 : Row -> Row -> Prop :=
| sbc_array (c0 c1 c1' : Cell) (rest : list Cell) :
    same_but_column_1 (RArray (c0 :: c1 :: rest)) (RArray (c0 :: c1' :: rest))
| sbc_same (row : Row) : same_but_column_1 row row.

(** A remote call as the second copy makes it for [row]: always on the
    singular collection name, the lookup by the ID as it is, the update
    with both fields as they are. *)
Definition second_copy_call (row : ExcelRow) (ev : SecondCopyEngine.Event) : Prop :=
  match ev with
  | SecondCopyEngine.EvRetrieve entityType options _ =>
      entityType = ALTERNATE /\ options = SecondCopyEngine.query row
  | SecondCopyEngine.EvUpdate entityType _ data _ =>
      entityType = ALTERNATE
      /\ data = [("afsdc_response", Response row); ("afsdc_comments", Notes row)]
  | _ => False
  end.

(** The notes rule of the code, in words: column 3 when present and not the
    empty string, trimmed; otherwise empty. *)
Definition notes_rule (cells : list Cell) : string :=
  match cell_text (nth_error cells 3) with
  | Some s => trim s
  | None => ""
  end.

(** A record as the extractor leaves it: a non-empty id, every field free
    of surrounding white space. *)
Definition clean_record (r : ExcelRow) : Prop :=
  ID r <> "" /\ trim (ID r) = ID r
  /\ trim (Response r) = Response r /\ trim (Notes r) = Notes r.

Definition is_retrieve (ev : Event) : bool :=
  match ev with EvRetrieve _ _ _ => true | _ => false end.

(** The ways the lookup phase can go, with the calls made. *)
Inductive LookupTrace (row : ExcelRow) (cleanId : string)
  : list Event -> UpdateResult + option RetrieveMultipleResponse -> Prop :=
| LT_primary (response : option RetrieveMultipleResponse) :
    LookupTrace row cleanId
      [EvRetrieve PRIMARY (query1 cleanId) (inr response)] (inr response)
| LT_alternate (error1 : JsError) (response : option RetrieveMultipleResponse) :
    LookupTrace row cleanId
      [EvRetrieve PRIMARY (query1 cleanId) (inl error1);
       EvRetrieve ALTERNATE (query1 cleanId) (inr response)] (inr response)
| LT_probed (error1 error2 : JsError) (testResponse : option RetrieveMultipleResponse) :
    LookupTrace row cleanId
      [EvRetrieve PRIMARY (query1 cleanId) (inl error1);
       EvRetrieve ALTERNATE (query1 cleanId) (inl error2);
       EvRetrieve PRIMARY query3 (inr testResponse)]
      (inl {| success := false; recordId := ID row;
              error := Some ("Record '" ++ cleanId ++ "' not found in entity")%string |})
| LT_inaccessible (error1 error2 error3 : JsError) :
    LookupTrace row cleanId
      [EvRetrieve PRIMARY (query1 cleanId) (inl error1);
       EvRetrieve ALTERNATE (query1 cleanId) (inl error2);
       EvRetrieve PRIMARY query3 (inl error3)]
      (inl {| success := false; recordId := ID row;
              error := Some ("Entity access error: "
                             ++ or_else (message error3) "Unknown error")%string |}).

(** The ways the payload and apply phases can go after the lookup left
    [retrieveResponse]. *)
Inductive ApplyTrace (row : ExcelRow)
  : option RetrieveMultipleResponse -> list Event -> UpdateResult -> Prop :=
| AT_missing :
    ApplyTrace row None []
      {| success := false; recordId := ID row;
         error := Some ("Record not found: '" ++ trim (ID row) ++ "'")%string |}
| AT_zero (response : RetrieveMultipleResponse) :
    entities response = [] ->
    ApplyTrace row (Some response) []
      {| success := false; recordId := ID row;
         error := Some ("Record not found: '" ++ trim (ID row) ++ "'")%string |}
| AT_noop (response : RetrieveMultipleResponse) :
    entities response <> [] ->
    build_updateData row = [] ->
    ApplyTrace row (Some response) []
      {| success := false; recordId := ID row;
         error := Some "No data to update (Response and Notes are empty)" |}
| AT_updated (response : RetrieveMultipleResponse) (existingRecord : Entity)
             (others : list Entity) :
    entities response = existingRecord :: others ->
    build_updateData row <> [] ->
    ApplyTrace row (Some response)
      [EvUpdate ALTERNATE (afsdc_questionresponseinstanceid existingRecord)
         (build_updateData row) (inr tt)]
      {| success := true; recordId := ID row; error := None |}
| AT_rejected (response : RetrieveMultipleResponse) (existingRecord : Entity)
              (others : list Entity) (e : JsError) :
    entities response = existingRecord :: others ->
    build_updateData row <> [] ->
    ApplyTrace row (Some response)
      [EvUpdate ALTERNATE (afsdc_questionresponseinstanceid existingRecord)
         (build_updateData row) (inl e)]
      {| success := false; recordId := ID row;
         error := Some ("Update failed: "
                        ++ or_else (message e)
                             (or_else (Some (toStr e)) "Unknown error"))%string |}.

(** The calls made for one record and its outcome. *)
Inductive RecordTrace (row : ExcelRow) : list Event -> UpdateResult -> Prop :=
| RT_early (calls : list Event) (r : UpdateResult) :
    LookupTrace row (trim (ID row)) calls (inl r) ->
    RecordTrace row calls r
| RT_found (calls calls' : list Event) (response : option RetrieveMultipleResponse)
           (r : UpdateResult) :
    LookupTrace row (trim (ID row)) calls (inr response) ->
    ApplyTrace row response calls' r ->
    RecordTrace row (calls ++ calls') r.

(** The trace and the outcomes of the record loop from index [i] on. *)
Inductive BatchTrace (N : nat)
  : nat -> list ExcelRow -> list Event -> list UpdateResult -> Prop :=
| BT_done (i : nat) : BatchTrace N i [] [] []
| BT_record (i : nat) (row : ExcelRow) (rows : list ExcelRow)
            (calls evs : list Event) (r : UpdateResult) (outs : list UpdateResult) :
    RecordTrace row calls r ->
    BatchTrace N (S i) rows evs outs ->
    BatchTrace N i (row :: rows)
      (EvModalStatus (processing_message i N row) SevInfo
       :: calls ++ EvModalProgress (progress_of i N) :: evs)
      (r :: outs).

(** An update call as the first copy may send it for [row]: to the singular
    collection name, with the payload built from the row. *)
Definition update_of (row : ExcelRow) (ev : Event) : Prop :=
  match ev with
  | EvUpdate entityType _ data _ =>
      entityType = ALTERNATE /\ data = build_updateData row /\ data <> []
  | _ => True
  end.

(* ===================================================================== *)
(** ** A store whose collections can be switched off *)
(* ===================================================================== *)

Module Scripted.

(** The store holds the names of its entities; each collection name can be
    reachable or not, and updates can be accepted or refused. *)
Record Store : Type := mkStore {
  primary_up : bool;
  alternate_up : bool;
  writable : bool;
  names : list string
}.

Definition refused : JsError :=
  {| message := Some "Forbidden"; toStr := "Error: Forbidden" |}.

(** The filter queries of both copies select the entity named [n]. *)
Definition selects (options n : string) : bool :=
  (options =? query1 n) || (options =? "?$filter=afsdc_name eq '" ++ n ++ "'").

Definition retrieve (entityType options : string) (s : Store)
  : (JsError + option RetrieveMultipleResponse) * Store :=
  if (entityType =? PRIMARY) && primary_up s || (entityType =? ALTERNATE) && alternate_up s
  then (inr (Some {| entities :=
               map (fun n => {| afsdc_questionresponseinstanceid := "guid-" ++ n;
                                afsdc_name := n |})
                   (filter (selects options) (names s)) |}), s)
  else (inl refused, s).

Definition update (entityType id : string) (data : UpdateData) (s : Store)
  : (JsError + unit) * Store :=
  if writable s then (inr tt, s) else (inl refused, s).

#[global] Instance webAPI : WebApi Store := {|
  webAPI_retrieveMultipleRecords := retrieve;
  webAPI_updateRecord := update
|}.

End Scripted.

(* ===================================================================== *)
(** ** Sample inputs *)
(* ===================================================================== *)

Module Sample.

Definition A1 : ExcelRow := {| ID := "A1"; Response := "R"; Notes := "N" |}.

(** Both collection names unreachable. *)
Definition offline : World Scripted.Store :=
  mkWorld (Scripted.mkStore false false true ["A1"]) [A1] [].

(** The primary collection answers; it holds no entity named A1. *)
Definition primary_without_A1 : World Scripted.Store :=
  mkWorld (Scripted.mkStore true true true ["B7"]) [A1] [].

(** Only the alternate name answers, and updates are refused. *)
Definition read_only : World Scripted.Store :=
  mkWorld (Scripted.mkStore false true false ["A1"]) [A1] [].


Definition second_copy_idle : SecondCopyEngine.World Scripted.Store :=
  SecondCopyEngine.mkWorld (Scripted.mkStore false true true ["A1"]) [] [].

(** A sheet with a header and rows without an id. *)
Definition sheet_without_ids : list Row :=
  [RArray [CStr "ID"; CStr "Resp"]; RArray [CStr ""; CStr "x"]; RArray [CStr "  "]].

(** A workbook without sheet metadata. *)
Definition plain_workbook : WorkBook :=
  {| SheetNames := ["Data"; "Lookups"]; Workbook_Sheets := None |}.

End Sample.

(* ===================================================================== *)
(** ** Percentages in ordinary arithmetic *)
(* ===================================================================== *)

(** These definitions follow the specification's reading of
    round(k / N * 100), not the code: they are what the values computed by
    [progress_of] are compared with. *)

(** [100 * k / N] rounded to the nearest integer, a half going up,
    computed on integers: the floor of [(200 * k + N) / (2 * N)]. *)
Definition exact_percent (k N : nat) : Z :=
  ((200 * Z.of_nat k + Z.of_nat N) / (2 * Z.of_nat N))%Z.

(** [100 * k / N] lies exactly halfway between two integers. *)
Definition halfway (k N : nat) : bool :=
  ((200 * Z.of_nat k + Z.of_nat N) mod (2 * Z.of_nat N) =? 0)%Z.

(** [v] is the ordinary rounding of [100 * k / N], or one less than it
    when [100 * k / N] is exactly halfway. *)
Definition near_percent (k N : nat) (v : Z) : Prop :=
  v = exact_percent k N
  \/ (halfway k N = true /\ v = (exact_percent k N - 1)%Z).

(** The unit roundoff of binary64, [2^-53]. *)
Definition u53 : Q := 1 # 9007199254740992.

(** A batch of forty records, none of them in the store. *)
Definition forty_records : World Demo.Store :=
  Demo.world []
    (map (fun n => {| ID := string_of_nat n; Response := "R"; Notes := "" |})
         (seq 1 40)).


(* ===================================================================== *)
(** ** Basic facts about strings and cells *)
(* ===================================================================== *)

Lemma truthy_true (s : string) : truthy s = true <-> s <> "".
Proof.
  unfold truthy. rewrite negb_true_iff. apply String.eqb_neq.
Qed.

Lemma truthy_false (s : string) : truthy s = false <-> s = "".
Proof.
  unfold truthy. rewrite negb_false_iff. apply String.eqb_eq.
Qed.

Lemma trim_empty : trim "" = "".
Proof. reflexivity. Qed.

Lemma toString_nonblank (c : Cell) :
  nonblank c = true -> exists s, toString c = inr s.
Proof.
  destruct c as [ | | s | n | [|] ]; simpl; intros H; try discriminate; eauto.
Qed.

Lemma toString_blank (c : Cell) (s : string) :
  nonblank c = false -> toString c = inr s -> s = "".
Proof.
  destruct c as [ | | t | n | [|] ]; simpl; intros H E; try discriminate.
  injection E as <-. now apply negb_false_iff, String.eqb_eq in H.
Qed.

(** Reading a cell that was guarded by [nonblank] never throws. *)
Lemma guarded_toString (c : Cell) :
  nonblank c = true ->
  exists s, toString c = inr s /\
            Exc.bind (toString c) (fun s => Exc.ret (trim s)) = inr (trim s).
Proof.
  intros H. destruct (toString_nonblank c H) as [s E].
  exists s. split; [exact E|]. rewrite E. reflexivity.
Qed.

Lemma row_id_total (cells : list Cell) : exists id, row_id cells = inr id.
Proof.
  unfold row_id. destruct (nonblank (at_ cells 0)) eqn:E.
  - destruct (guarded_toString _ E) as (s & _ & ->). eauto.
  - eexists; reflexivity.
Qed.

Lemma row_response_total (cells : list Cell) : exists r, row_response cells = inr r.
Proof.
  unfold row_response.
  destruct ((2 <? length cells)%nat && nonblank (at_ cells 2)) eqn:E2.
  - apply andb_true_iff in E2 as [_ E2].
    destruct (guarded_toString _ E2) as (s & _ & ->). eauto.
  - destruct ((1 <? length cells)%nat && nonblank (at_ cells 1)) eqn:E1.
    + apply andb_true_iff in E1 as [_ E1].
      destruct (guarded_toString _ E1) as (s & _ & ->). eauto.
    + eexists; reflexivity.
Qed.

Lemma row_notes_total (cells : list Cell) (response : string) :
  exists n, row_notes cells response = inr n.
Proof.
  unfold row_notes.
  destruct ((3 <? length cells)%nat && nonblank (at_ cells 3)) eqn:E3.
  - apply andb_true_iff in E3 as [_ E3].
    destruct (guarded_toString _ E3) as (s & _ & ->). eauto.
  - destruct ((2 <? length cells)%nat && nonblank (at_ cells 2)
              && negb (truthy response)) eqn:E2.
    + apply andb_true_iff in E2 as [E2 _]. apply andb_true_iff in E2 as [_ E2].
      destruct (guarded_toString _ E2) as (s & _ & ->). eauto.
    + eexists; reflexivity.
Qed.

Lemma row_id_spec (c : Cell) (rest : list Cell) (id : string) :
  row_id (c :: rest) = inr id ->
  (id <> "" -> has_id (RArray (c :: rest)) id) /\
  (id = "" -> forall id', ~ has_id (RArray (c :: rest)) id').
Proof.
  unfold row_id, at_; simpl. destruct (nonblank c) eqn:E.
  - destruct (guarded_toString _ E) as (s & Es & ->). intros [= <-]. split.
    + intros Hne. exists c, rest, s. auto.
    + intros He id' (c' & rest' & s' & [= <- <-] & Es' & Ht & Hne).
      rewrite Es in Es'. injection Es' as <-. congruence.
  - intros [= <-]. split; [congruence|].
    intros _ id' (c' & rest' & s' & [= <- <-] & Es' & Ht & Hne).
    apply (toString_blank _ _ E) in Es'. subst s'. rewrite trim_empty in Ht. congruence.
Qed.

(** One iteration never throws; it appends the row's record or nothing. *)
Lemma parseRow_spec (row : Row) (parsedData : list ExcelRow) :
  exists e, parseRow row parsedData = inr (parsedData ++ olist e) /\ emission row e.
Proof.
  destruct row as [cells | v].
  - destruct cells as [ | c rest].
    + exists None. simpl. rewrite app_nil_r. split; [reflexivity|].
      intros id (c & rest & s & [=] & _).
    + unfold parseRow.
      replace (1 <=? length (c :: rest))%nat with true by reflexivity.
      destruct (row_id_total (c :: rest)) as [id Eid].
      destruct (row_response_total (c :: rest)) as [response Er].
      destruct (row_notes_total (c :: rest) response) as [notes En].
      rewrite Eid, Er; simpl. rewrite En; simpl.
      destruct (row_id_spec _ _ _ Eid) as [Hyes Hno].
      destruct (truthy id) eqn:Et.
      * exists (Some {| ID := id; Response := response; Notes := notes |}).
        split; [reflexivity|]. simpl. apply Hyes. now apply truthy_true.
      * exists None. simpl. rewrite app_nil_r. split; [reflexivity|].
        apply Hno. now apply truthy_false.
  - exists None. simpl. rewrite app_nil_r. split; [reflexivity|].
    intros id (c & rest & s & [=] & _).
Qed.

Lemma parseRows_spec (rows : list Row) :
  forall parsedData,
  exists emitted,
    parseRows rows parsedData = inr (parsedData ++ flat_map olist emitted)
    /\ Forall2 emission rows emitted.
Proof.
  induction rows as [ | row rest IH]; intros parsedData.
  - exists []. simpl. rewrite app_nil_r. split; [reflexivity | constructor].
  - destruct (parseRow_spec row parsedData) as (e & Ee & He).
    destruct (IH (parsedData ++ olist e)) as (es & Ees & Hes).
    exists (e :: es). simpl. rewrite Ee. simpl. rewrite Ees, <- app_assoc.
    split; [reflexivity | now constructor].
Qed.

(* ===================================================================== *)
(** ** Extraction: the claims about [parseExcelData] *)
(* ===================================================================== *)

(** C2. For a grid with at least two rows, extraction succeeds and every
    data row (index >= 1) contributes, in row order, either one record or
    nothing: it contributes a record exactly when it is an array with a
    first column that stringifies and trims to a non-empty id (then the
    record's ID), and the other rows are dropped without an error. *)
Theorem extraction_emits_iff_id (jsonData : list Row) :
  (2 <= length jsonData)%nat ->
  exists emitted : list (option ExcelRow),
    parseExcelData jsonData = inr (flat_map olist emitted)
    /\ Forall2 emission (skipn 1 jsonData) emitted.
Proof.
  intros Hlen. unfold parseExcelData.
  destruct (Nat.ltb_spec (length jsonData) 2) as [Hlt | _]; [lia|].
  destruct (parseRows_spec (skipn 1 jsonData) []) as (es & Ees & Hes).
  exists es. now rewrite Ees.
Qed.

Lemma extraction_emits_iff_id_witness :
  exists emitted : list (option ExcelRow),
    parseExcelData
      [RArray [CStr "ID"; CStr "Resp"; CStr "Notes"];
       RArray [CStr "R1"; CStr "Yes"; CStr "ok"];
       RArray [CStr "  "; CStr "ignored"];
       RValue CNull;
       RArray [CNum 42]]
    = inr (flat_map olist emitted)
    /\ Forall2 emission
         (skipn 1 [RArray [CStr "ID"; CStr "Resp"; CStr "Notes"];
                   RArray [CStr "R1"; CStr "Yes"; CStr "ok"];
                   RArray [CStr "  "; CStr "ignored"];
                   RValue CNull;
                   RArray [CNum 42]])
         emitted.
Proof.
  apply extraction_emits_iff_id. simpl. lia.
Defined.

Lemma guarded_read (cells : list Cell) (i : nat) :
  ((i <? length cells)%nat && nonblank (at_ cells i) = true ->
   exists s, cell_text (nth_error cells i) = Some s /\ toString (at_ cells i) = inr s)
  /\ ((i <? length cells)%nat && nonblank (at_ cells i) = false ->
      cell_text (nth_error cells i) = None).
Proof.
  unfold at_. revert i. induction cells as [ | c rest IH]; intros i.
  - split; [discriminate|]. now destruct i.
  - destruct i as [ | i].
    + simpl. destruct c as [ | | s | n | [|] ]; simpl; split; try discriminate; eauto.
      * destruct (s =? ""); simpl; [discriminate | eauto].
      * destruct (s =? ""); simpl; [reflexivity | discriminate].
    + apply (IH i).
Qed.

Lemma row_response_rule (cells : list Cell) :
  row_response cells = inr (response_rule cells).
Proof.
  unfold row_response, response_rule.
  destruct (guarded_read cells 2) as [Y2 N2].
  destruct (guarded_read cells 1) as [Y1 N1].
  destruct ((2 <? length cells)%nat && nonblank (at_ cells 2)).
  - destruct (Y2 eq_refl) as (s & -> & ->). reflexivity.
  - rewrite (N2 eq_refl).
    destruct ((1 <? length cells)%nat && nonblank (at_ cells 1)).
    + destruct (Y1 eq_refl) as (s & -> & ->). reflexivity.
    + now rewrite (N1 eq_refl).
Qed.

(** The notes of a record are the trimmed text of column 3, or empty: the
    fallback to column 2 only runs when the response is empty, and then
    column 2 itself trims to the empty string. *)
Lemma row_notes_rule (cells : list Cell) :
  row_notes cells (response_rule cells)
  = inr (match cell_text (nth_error cells 3) with
         | Some s => trim s
         | None => ""
         end).
Proof.
  unfold row_notes.
  destruct (guarded_read cells 3) as [Y3 N3].
  destruct (guarded_read cells 2) as [Y2 N2].
  destruct ((3 <? length cells)%nat && nonblank (at_ cells 3)).
  - destruct (Y3 eq_refl) as (s & -> & ->). reflexivity.
  - rewrite (N3 eq_refl).
    destruct ((2 <? length cells)%nat && nonblank (at_ cells 2)).
    + destruct (Y2 eq_refl) as (s & E2 & ->).
      unfold response_rule. rewrite E2. cbn [andb].
      destruct (truthy (trim s)) eqn:T; cbn [negb]; [reflexivity|].
      apply truthy_false in T. simpl. now rewrite T.
    + reflexivity.
Qed.

(** C7 (the code at the failing input). For the row ["A1", "R2", "N2"]
    below any header row, extraction produces the record with response
    "N2" and empty notes, where the claim, and the comments of
    [parseExcelData] on the three-column layout ("Response could be in
    column 2 or 3", "Notes could be in column 3 or 4"), expect response
    "R2" and notes "N2".  Column 2 is read first as the response, so a
    three-column row loses its response; and the fallback that reads
    column 2 as notes runs only once column 2 is known to be blank, so the
    notes come out empty. *)
Theorem three_column_row_response_from_column_2 (header : Row) :
  parseExcelData [header; RArray [CStr "A1"; CStr "R2"; CStr "N2"]]
  = inr [ {| ID := "A1"; Response := "N2"; Notes := "" |} ].
Proof. reflexivity. Qed.

(** C7, the divergence: the record extracted from ["A1", "R2", "N2"]
    does not have response "R2" and notes "N2". *)
Lemma three_column_row_counterexample :
  ~ (exists r,
        parseExcelData [RArray [CStr "ID"; CStr "Resp"; CStr "Notes"];
                        RArray [CStr "A1"; CStr "R2"; CStr "N2"]] = inr [r]
        /\ Response r = "R2" /\ Notes r = "N2").
Proof.
  intros (r & E & Hr & _). vm_compute in E. injection E as <-. discriminate Hr.
Qed.

(** C8 (as amended). Every data row that is an array either contributes
    nothing or contributes a record whose response is: the trimmed text of
    column 2 when that cell is present and is not the empty string (judged
    before trimming); otherwise the trimmed text of column 1 when that cell
    is present and is not the empty string; otherwise the empty string.  In
    particular the row ["A1", "", "R", "N"] gives response "R" and notes "N". *)
Theorem response_prefers_column_2 (cells : list Cell) (parsedData : list ExcelRow) :
  (parseRow (RArray cells) parsedData = inr parsedData
   \/ exists id notes,
        parseRow (RArray cells) parsedData
        = inr (parsedData ++ [ {| ID := id; Response := response_rule cells;
                                  Notes := notes |} ]))
  /\ (forall header,
        parseExcelData [header; RArray [CStr "A1"; CStr ""; CStr "R"; CStr "N"]]
        = inr [ {| ID := "A1"; Response := "R"; Notes := "N" |} ]).
Proof.
  split; [ | reflexivity].
  unfold parseRow. destruct (1 <=? length cells)%nat; [ | now left].
  destruct (row_id_total cells) as [id ->].
  rewrite row_response_rule. simpl.
  destruct (row_notes_total cells (response_rule cells)) as [notes ->]. simpl.
  destruct (truthy id); [right; eauto | now left].
Qed.

(** C8, the claim as stated fails on a white-space-only column 2: for the
    row ["A1", "R", "  "] the code takes column 2 (it is not the empty
    string) and trims it to the empty response, where the claim falls back
    to column 1 and gives "R". *)
Lemma response_blank_column_2_counterexample :
  parseExcelData [RArray [CStr "ID"]; RArray [CStr "A1"; CStr "R"; CStr "  "]]
  = inr [ {| ID := "A1"; Response := ""; Notes := "" |} ]
  /\ claimed_response [CStr "A1"; CStr "R"; CStr "  "] = "R"
  /\ row_response [CStr "A1"; CStr "R"; CStr "  "]
     <> inr (claimed_response [CStr "A1"; CStr "R"; CStr "  "]).
Proof.
  split; [reflexivity | split; [reflexivity | ]].
  vm_compute. discriminate.
Qed.

(* ===================================================================== *)
(** ** The two [parseExcelData] implementations compared *)
(* ===================================================================== *)

Lemma regular_parseRow (row : Row) (parsedData : list ExcelRow) :
  regular row = true ->
  parseRow row parsedData = inr (SecondCopy.parseRow row parsedData).
Proof.
  destruct row as [cells | v]; [ | discriminate].
  destruct cells as [ | c0 [ | c1 [ | c2 rest]]]; try discriminate.
  unfold regular. replace (3 <=? length (c0 :: c1 :: c2 :: rest))%nat with true by reflexivity.
  rewrite !andb_true_iff. intros [[[_ H0] H2] H3].
  unfold SecondCopy.parseRow, SecondCopy.long_enough, SecondCopy.index.
  replace (3 <=? length (c0 :: c1 :: c2 :: rest))%nat with true by reflexivity.
  unfold parseRow, row_id, row_response, row_notes.
  replace (1 <=? length (c0 :: c1 :: c2 :: rest))%nat with true by reflexivity.
  replace (2 <? length (c0 :: c1 :: c2 :: rest))%nat with true by reflexivity.
  replace (3 <? length (c0 :: c1 :: c2 :: rest))%nat
    with (0 <? length rest)%nat by reflexivity.
  unfold at_ in *. cbn [nth] in *.
  destruct c0 as [ | | s0 | | ]; try discriminate.
  destruct c2 as [ | | s2 | | ]; try discriminate.
  cbn [tidy] in H0, H2.
  apply andb_true_iff in H0 as [T0 N0]. apply andb_true_iff in H2 as [T2 N2].
  apply String.eqb_eq in T0, T2.
  cbn [nonblank toString Exc.bind Exc.ret andb]. rewrite N0, N2.
  cbn [Exc.bind Exc.ret andb]. rewrite T0, T2.
  assert (E0 : truthy s0 = true) by exact N0.
  assert (E2 : truthy s2 = true) by exact N2.
  rewrite E0, E2. cbn [negb andb].
  unfold SecondCopy.text_or_empty. cbn [toString or_else]. rewrite E0, E2.
  destruct rest as [ | c3 rest']; cbn [nth length Nat.ltb Nat.leb andb] in *.
  - reflexivity.
  - destruct c3 as [ | | s3 | | ]; try discriminate;
      cbn [nonblank toString Exc.bind Exc.ret or_else].
    + reflexivity.
    + reflexivity.
    + cbn [tidy_or_blank] in H3. apply String.eqb_eq in H3.
      unfold truthy. destruct (s3 =? "") eqn:E3; cbn [negb Exc.bind Exc.ret].
      * apply String.eqb_eq in E3. now subst s3.
      * now rewrite H3.
Qed.

Lemma regular_parseRows (rows : list Row) :
  forallb regular rows = true ->
  forall parsedData,
    parseRows rows parsedData = inr (SecondCopy.parseRows rows parsedData).
Proof.
  induction rows as [ | row rest IH]; intros H parsedData; [reflexivity|].
  simpl in H. apply andb_true_iff in H as [Hr Hrest].
  simpl. rewrite (regular_parseRow _ _ Hr). simpl. now apply IH.
Qed.

(** C10 (as amended). The two [parseExcelData] implementations throw under
    the same condition (fewer than two rows, and then the same error), and
    they return the same records on every grid whose data rows are all
    regular: arrays of at least three cells with tidy text in columns 0
    and 2 and a tidy or blank column 3. *)
Theorem parseExcelData_copies_agree_on_regular_grids (jsonData : list Row) :
  ((exists e, parseExcelData jsonData = inl e) <-> (length jsonData < 2)%nat)
  /\ ((exists e, SecondCopy.parseExcelData jsonData = inl e) <-> (length jsonData < 2)%nat)
  /\ ((length jsonData < 2)%nat ->
      parseExcelData jsonData = SecondCopy.parseExcelData jsonData)
  /\ (forallb regular (skipn 1 jsonData) = true ->
      parseExcelData jsonData = SecondCopy.parseExcelData jsonData).
Proof.
  unfold parseExcelData, SecondCopy.parseExcelData.
  destruct (Nat.ltb_spec (length jsonData) 2) as [Hlt | Hge].
  - repeat split; eauto.
  - destruct (parseRows_spec (skipn 1 jsonData) []) as (es & Ees & _).
    repeat split; try lia.
    + intros [e He]. rewrite Ees in He. discriminate.
    + intros [e He]. discriminate.
    + intros H. now apply regular_parseRows.
Qed.

Lemma parseExcelData_copies_agree_on_regular_grids_witness :
  parseExcelData
    [RArray [CStr "ID"; CStr "Q"; CStr "Resp"; CStr "Notes"];
     RArray [CStr "R1"; CStr "q1"; CStr "Yes"; CStr "ok"];
     RArray [CStr "R2"; CNull; CStr "No"]]
  = SecondCopy.parseExcelData
      [RArray [CStr "ID"; CStr "Q"; CStr "Resp"; CStr "Notes"];
       RArray [CStr "R1"; CStr "q1"; CStr "Yes"; CStr "ok"];
       RArray [CStr "R2"; CNull; CStr "No"]].
Proof.
  apply (parseExcelData_copies_agree_on_regular_grids
           [RArray [CStr "ID"; CStr "Q"; CStr "Resp"; CStr "Notes"];
            RArray [CStr "R1"; CStr "q1"; CStr "Yes"; CStr "ok"];
            RArray [CStr "R2"; CNull; CStr "No"]]).
  vm_compute. reflexivity.
Defined.

(** C10, the claim as stated fails: on a two-column data row both copies
    succeed, the first one emits a record and the second one emits none. *)
Lemma parseExcelData_copies_counterexample :
  parseExcelData [RArray [CStr "ID"; CStr "Resp"]; RArray [CStr "A1"; CStr "R"]]
  = inr [ {| ID := "A1"; Response := "R"; Notes := "" |} ]
  /\ SecondCopy.parseExcelData
       [RArray [CStr "ID"; CStr "Resp"]; RArray [CStr "A1"; CStr "R"]]
     = inr []
  /\ parseExcelData [RArray [CStr "ID"; CStr "Resp"]; RArray [CStr "A1"; CStr "R"]]
     <> SecondCopy.parseExcelData
          [RArray [CStr "ID"; CStr "Resp"]; RArray [CStr "A1"; CStr "R"]].
Proof.
  split; [reflexivity | split; [reflexivity | ]].
  vm_compute. discriminate.
Qed.

(* ===================================================================== *)
(** ** The progress percentage *)
(* ===================================================================== *)

(** *** Powers of two *)

Lemma two_pos : 0 < 2. Proof. reflexivity. Qed.
Lemma two_ge_1 : 1 <= 2. Proof. discriminate. Qed.
Lemma two_neq_0 : ~ 2 == 0. Proof. discriminate. Qed.

Lemma pow2_pos (e : Z) : 0 < 2 ^ e.
Proof. apply Qpower_0_lt, two_pos. Qed.

Lemma pow2_le (a b : Z) : (a <= b)%Z -> 2 ^ a <= 2 ^ b.
Proof. intros H. apply Qpower_le_compat_l; [exact H | exact two_ge_1]. Qed.

Lemma pow2_add (a b : Z) : 2 ^ (a + b) == 2 ^ a * 2 ^ b.
Proof. apply Qpower_plus, two_neq_0. Qed.

Lemma pow2_Z (n : Z) : (0 <= n)%Z -> inject_Z (2 ^ n) == 2 ^ n.
Proof. intros H. now rewrite Zpower_Qpower. Qed.

(** *** Rounding to an integer *)

Lemma rne_floor (x : Q) : rne x = Qfloor x \/ rne x = (Qfloor x + 1)%Z.
Proof.
  unfold rne. destruct (Qcompare _ _); auto. destruct (Z.even _); auto.
Qed.

Lemma rne_mono (x y : Q) : x <= y -> (rne x <= rne y)%Z.
Proof.
  intros Hxy. pose proof (Qfloor_resp_le _ _ Hxy) as Hf.
  destruct (Z.eq_dec (Qfloor x) (Qfloor y)) as [E | NE].
  - unfold rne. rewrite <- E.
    assert (Hfrac : x - inject_Z (Qfloor x) <= y - inject_Z (Qfloor x)).
    { apply Qplus_le_l with (z := inject_Z (Qfloor x)). ring_simplify. exact Hxy. }
    destruct (Qcompare (x - inject_Z (Qfloor x)) (1 # 2)) eqn:Cx;
      destruct (Qcompare (y - inject_Z (Qfloor x)) (1 # 2)) eqn:Cy;
      try destruct (Z.even (Qfloor x)); try lia;
      rewrite <- ?Qeq_alt, <- ?Qlt_alt, <- ?Qgt_alt in *; exfalso.
    all: try (rewrite Cx in Hfrac); try (rewrite Cy in Hfrac).
    all: try (apply (Qlt_irrefl (1 # 2)); eapply Qle_lt_trans; eassumption).
    all: try (apply (Qlt_irrefl (1 # 2)); eapply Qlt_le_trans; eassumption).
    all: try (apply (Qlt_irrefl (y - inject_Z (Qfloor x)));
              eapply Qlt_le_trans; [exact Cy | ]; eapply Qle_trans; [ | exact Hfrac];
              apply Qlt_le_weak; exact Cx).
  - destruct (rne_floor x) as [-> | ->]; destruct (rne_floor y) as [-> | ->]; lia.
Qed.

Lemma rne_Z (n : Z) : rne (inject_Z n) = n.
Proof.
  unfold rne. rewrite Qfloor_Z.
  assert (E : Qcompare (inject_Z n - inject_Z n) (1 # 2) = Lt).
  { rewrite <- Qlt_alt. setoid_replace (inject_Z n - inject_Z n) with 0 by ring.
    reflexivity. }
  now rewrite E.
Qed.

(** *** The binade of a positive rational *)

Lemma Qnum_pos (x : Q) : 0 < x -> (0 < Qnum x)%Z.
Proof. unfold Qlt. simpl. lia. Qed.

Lemma binade_spec (x : Q) :
  0 < x -> 2 ^ binade x <= x /\ x < 2 ^ (binade x + 1).
Proof.
  intros Hx. pose proof (Qnum_pos x Hx) as Ha.
  destruct x as [a b]. simpl in Ha. unfold binade. cbn [Qnum Qden].
  set (la := Z.log2 a). set (lb := Z.log2 (Z.pos b)).
  destruct (Z.log2_spec a Ha) as [Ha1 Ha2]. fold la in Ha1, Ha2.
  destruct (Z.log2_spec (Z.pos b) eq_refl) as [Hb1 Hb2]. fold lb in Hb1, Hb2.
  assert (Hla : (0 <= la)%Z) by apply Z.log2_nonneg.
  assert (Hlb : (0 <= lb)%Z) by apply Z.log2_nonneg.
  assert (Qa1 : 2 ^ la <= inject_Z a).
  { rewrite <- pow2_Z by lia. now rewrite <- Zle_Qle. }
  assert (Qa2 : inject_Z a < 2 ^ (la + 1)).
  { rewrite <- pow2_Z by lia. now rewrite <- Zlt_Qlt. }
  assert (Qb1 : 2 ^ lb <= inject_Z (Z.pos b)).
  { rewrite <- pow2_Z by lia. now rewrite <- Zle_Qle. }
  assert (Qb2 : inject_Z (Z.pos b) < 2 ^ (lb + 1)).
  { rewrite <- pow2_Z by lia. now rewrite <- Zlt_Qlt. }
  assert (Qb : 0 < inject_Z (Z.pos b)) by reflexivity.
  assert (Ex : a # b == inject_Z a / inject_Z (Z.pos b)) by apply Qmake_Qdiv.
  assert (Hlow : 2 ^ (la - lb - 1) <= a # b).
  { rewrite Ex. apply Qle_shift_div_l; [exact Qb|].
    apply Qle_trans with (2 ^ (la - lb - 1) * 2 ^ (lb + 1)).
    - apply Qmult_le_l; [apply pow2_pos | now apply Qlt_le_weak].
    - rewrite <- pow2_add. replace (la - lb - 1 + (lb + 1))%Z with la by lia.
      exact Qa1. }
  assert (Hhigh : a # b < 2 ^ (la - lb + 1)).
  { rewrite Ex. apply Qlt_shift_div_r; [exact Qb|].
    apply Qlt_le_trans with (2 ^ (la + 1)); [exact Qa2|].
    replace (la + 1)%Z with ((la - lb + 1) + lb)%Z by lia.
    rewrite pow2_add. apply Qmult_le_l; [apply pow2_pos | exact Qb1]. }
  destruct (Qle_bool (2 ^ (la - lb)) (a # b)) eqn:C.
  - apply Qle_bool_iff in C. split; [exact C | exact Hhigh].
  - split; [exact Hlow|].
    replace (la - lb - 1 + 1)%Z with (la - lb)%Z by lia.
    apply Qnot_le_lt. intros H. apply Qle_bool_iff in H. congruence.
Qed.

Lemma binade_mono (x y : Q) : 0 < x -> x <= y -> (binade x <= binade y)%Z.
Proof.
  intros Hx Hxy.
  assert (Hy : 0 < y) by (eapply Qlt_le_trans; eassumption).
  destruct (binade_spec x Hx) as [Lx _]. destruct (binade_spec y Hy) as [_ Uy].
  destruct (Z_le_gt_dec (binade x) (binade y)) as [H | H]; [exact H | exfalso].
  apply (Qlt_irrefl y). eapply Qlt_le_trans; [exact Uy|].
  eapply Qle_trans; [ | exact Hxy]. eapply Qle_trans; [ | exact Lx].
  apply pow2_le. lia.
Qed.

(** *** Rounding to the nearest double *)

Lemma fl_pos_bounds (x : Q) :
  0 < x -> 2 ^ binade x <= fl_pos x /\ fl_pos x <= 2 ^ (binade x + 1).
Proof.
  intros Hx. destruct (binade_spec x Hx) as [L U]. unfold fl_pos.
  set (e := binade x) in *.
  assert (Hs : 0 < 2 ^ (52 - e)) by apply pow2_pos.
  assert (L' : inject_Z (2 ^ 52) <= x * 2 ^ (52 - e)).
  { rewrite pow2_Z by lia. replace 52%Z with (e + (52 - e))%Z at 1 by lia.
    rewrite pow2_add. apply Qmult_le_compat_r; [exact L | now apply Qlt_le_weak]. }
  assert (U' : x * 2 ^ (52 - e) <= inject_Z (2 ^ 53)).
  { rewrite pow2_Z by lia. replace 53%Z with ((e + 1) + (52 - e))%Z at 1 by lia.
    rewrite pow2_add. apply Qmult_le_compat_r; apply Qlt_le_weak; assumption. }
  apply rne_mono in L', U'. rewrite rne_Z in L', U'.
  rewrite Zle_Qle in L', U'. rewrite pow2_Z in L', U' by lia.
  assert (Ht : 0 <= 2 ^ (e - 52)) by apply Qlt_le_weak, pow2_pos.
  split.
  - replace e with (52 + (e - 52))%Z at 1 by lia. rewrite pow2_add.
    now apply Qmult_le_compat_r.
  - replace (e + 1)%Z with (53 + (e - 52))%Z by lia. rewrite pow2_add.
    now apply Qmult_le_compat_r.
Qed.

Lemma fl_pos_mono (x y : Q) : 0 < x -> x <= y -> fl_pos x <= fl_pos y.
Proof.
  intros Hx Hxy.
  assert (Hy : 0 < y) by (eapply Qlt_le_trans; eassumption).
  pose proof (binade_mono x y Hx Hxy) as He.
  destruct (Z.eq_dec (binade x) (binade y)) as [E | NE].
  - unfold fl_pos. rewrite E.
    apply Qmult_le_compat_r; [ | apply Qlt_le_weak, pow2_pos].
    rewrite <- Zle_Qle. apply rne_mono.
    apply Qmult_le_compat_r; [exact Hxy | apply Qlt_le_weak, pow2_pos].
  - destruct (fl_pos_bounds x Hx) as [_ Ux]. destruct (fl_pos_bounds y Hy) as [Ly _].
    eapply Qle_trans; [exact Ux|]. eapply Qle_trans; [ | exact Ly].
    apply pow2_le. lia.
Qed.

Lemma fl_positive (x : Q) : 0 < x -> fl x == fl_pos x /\ 0 < fl x.
Proof.
  intros Hx. pose proof (Qnum_pos x Hx) as Ha. unfold fl.
  destruct (Qnum x) eqn:E; try lia. split; [reflexivity|].
  eapply Qlt_le_trans; [apply (pow2_pos (binade x)) | apply fl_pos_bounds, Hx].
Qed.

Lemma fl_mono (x y : Q) : 0 < x -> x <= y -> fl x <= fl y.
Proof.
  intros Hx Hxy.
  assert (Hy : 0 < y) by (eapply Qlt_le_trans; eassumption).
  destruct (fl_positive x Hx) as [-> _]. destruct (fl_positive y Hy) as [-> _].
  now apply fl_pos_mono.
Qed.

Lemma fl_comp (x y : Q) : 0 < x -> x == y -> fl x == fl y.
Proof.
  intros Hx E. apply Qle_antisym; apply fl_mono; auto.
  - rewrite E. apply Qle_refl.
  - now rewrite <- E.
  - rewrite E. apply Qle_refl.
Qed.

Lemma fl_1 : fl 1 == 1.
Proof. vm_compute. reflexivity. Qed.

Lemma fl_100 : fl 100 == 100.
Proof. vm_compute. reflexivity. Qed.

(** The model of the rounding agrees with binary64 arithmetic on every
    batch of up to 50 records (1275 quotients and products). *)
Lemma fl_agrees_with_binary64 : fl_agrees_upto 50 = true.
Proof. vm_compute. reflexivity. Qed.

(** *** The percentage *)

(** Record 23 of 40: the quotient 23/40 rounds below 0.575 and the product
    to 57.49999999999999, so the percentage shown is 57. *)
Lemma progress_23_of_40 : progress_of 22 40 = 57%Z.
Proof. vm_compute. reflexivity. Qed.

Lemma ratio_pos (a b : nat) :
  (0 < a)%nat -> (0 < b)%nat -> 0 < number_of_nat a / number_of_nat b.
Proof.
  intros Ha Hb. unfold number_of_nat.
  apply Qlt_shift_div_l.
  - change 0 with (inject_Z 0). rewrite <- Zlt_Qlt. lia.
  - rewrite Qmult_0_l. change 0 with (inject_Z 0). rewrite <- Zlt_Qlt. lia.
Qed.


Lemma ratio_self (b : nat) :
  (0 < b)%nat -> number_of_nat b / number_of_nat b == 1.
Proof.
  intros Hb. unfold number_of_nat. apply Qmult_inv_r.
  intros E. unfold Qeq in E. cbn [Qnum Qden inject_Z] in E. lia.
Qed.


Lemma times_100_pos (q : Q) : 0 < q -> 0 < q * 100.
Proof. intros H. rewrite <- (Qmult_0_l 100). now apply Qmult_lt_compat_r. Qed.




Lemma progress_of_last (N : nat) :
  (0 < N)%nat -> progress_of (N - 1) N = 100%Z.
Proof.
  intros HN. unfold progress_of, Math_round, js_mul, js_div.
  replace (N - 1 + 1)%nat with N by lia.
  change 100%Z with (Qfloor (100 + (1 # 2))). apply Qfloor_comp.
  apply Qplus_comp; [ | reflexivity].
  assert (E1 : fl (number_of_nat N / number_of_nat N) == 1).
  { transitivity (fl 1); [ | exact fl_1].
    apply fl_comp; [apply ratio_pos; lia | apply ratio_self; lia]. }
  transitivity (fl 100); [ | exact fl_100].
  apply fl_comp.
  - apply times_100_pos. rewrite E1. reflexivity.
  - rewrite E1. reflexivity.
Qed.

(** *** The rounding error of [fl], and the percentages in ordinary
    arithmetic *)

Lemma u53_pow : 2 ^ (-53) == u53.
Proof. vm_compute. reflexivity. Qed.

Lemma rne_error (y : Q) :
  y - (1 # 2) <= inject_Z (rne y) /\ inject_Z (rne y) <= y + (1 # 2).
Proof.
  pose proof (Qfloor_le y) as Hlo. pose proof (Qlt_floor y) as Hhi.
  rewrite inject_Z_plus in Hhi. change (inject_Z 1) with 1 in Hhi.
  unfold rne.
  destruct (Qcompare (y - inject_Z (Qfloor y)) (1 # 2)) eqn:C.
  - apply Qeq_alt in C. destruct (Z.even (Qfloor y));
      rewrite ?inject_Z_plus; change (inject_Z 1) with 1; split; lra.
  - apply Qlt_alt in C. split; lra.
  - apply Qgt_alt in C. rewrite inject_Z_plus. change (inject_Z 1) with 1. split; lra.
Qed.

(** Rounding to binary64 changes a positive number by at most the
    fraction [2^-53] of it. *)
Lemma fl_pos_error (x : Q) :
  0 < x -> x * (1 - u53) <= fl_pos x /\ fl_pos x <= x * (1 + u53).
Proof.
  intros Hx. destruct (binade_spec x Hx) as [L _]. unfold fl_pos.
  set (e := binade x) in *.
  set (y := x * 2 ^ (52 - e)).
  destruct (rne_error y) as [Rlo Rhi].
  assert (Hs : 0 < 2 ^ (e - 52)) by apply pow2_pos.
  assert (Ey : y * 2 ^ (e - 52) == x).
  { unfold y. rewrite <- Qmult_assoc, <- pow2_add.
    replace (52 - e + (e - 52))%Z with 0%Z by lia. simpl. ring. }
  assert (Eh : (1 # 2) * 2 ^ (e - 52) <= x * u53).
  { rewrite <- u53_pow.
    setoid_replace ((1 # 2) * 2 ^ (e - 52)) with (2 ^ e * 2 ^ (-53)).
    - apply Qmult_le_compat_r; [exact L | apply Qlt_le_weak, pow2_pos].
    - rewrite <- pow2_add.
      setoid_replace (1 # 2) with (2 ^ (-1)) by reflexivity.
      rewrite <- pow2_add. replace (-1 + (e - 52))%Z with (e + -53)%Z by lia.
      reflexivity. }
  assert (Lo : (y - (1 # 2)) * 2 ^ (e - 52) <= inject_Z (rne y) * 2 ^ (e - 52))
    by (apply Qmult_le_compat_r; [exact Rlo | now apply Qlt_le_weak]).
  assert (Hi : inject_Z (rne y) * 2 ^ (e - 52) <= (y + (1 # 2)) * 2 ^ (e - 52))
    by (apply Qmult_le_compat_r; [exact Rhi | now apply Qlt_le_weak]).
  setoid_replace ((y - (1 # 2)) * 2 ^ (e - 52))
    with (x - (1 # 2) * 2 ^ (e - 52)) in Lo by (rewrite <- Ey; ring).
  setoid_replace ((y + (1 # 2)) * 2 ^ (e - 52))
    with (x + (1 # 2) * 2 ^ (e - 52)) in Hi by (rewrite <- Ey; ring).
  split.
  - eapply Qle_trans; [ | exact Lo].
    setoid_replace (x * (1 - u53)) with (x - x * u53) by ring. lra.
  - eapply Qle_trans; [exact Hi | ].
    setoid_replace (x * (1 + u53)) with (x + x * u53) by ring. lra.
Qed.

Lemma fl_error (x : Q) :
  0 < x -> x * (1 - u53) <= fl x /\ fl x <= x * (1 + u53).
Proof.
  intros Hx. destruct (fl_positive x Hx) as [E _].
  destruct (fl_pos_error x Hx) as [Lo Hi]. rewrite E. now split.
Qed.

Lemma inject_Z_pos (b : Z) : (0 < b)%Z -> 0 < inject_Z b.
Proof. intros H. unfold Qlt. simpl. lia. Qed.

(** A quotient of integers lies between its floor and the floor plus one
    less the inverse of the denominator; when the division leaves a
    remainder it is at least that inverse above its floor. *)
Lemma div_frame (a b : Z) :
  (0 < b)%Z ->
  inject_Z (a / b) <= inject_Z a / inject_Z b
  /\ inject_Z a / inject_Z b + / inject_Z b <= inject_Z (a / b) + 1
  /\ ((a mod b)%Z <> 0%Z ->
      inject_Z (a / b) + / inject_Z b <= inject_Z a / inject_Z b).
Proof.
  intros Hb.
  assert (Hb' : 0 < inject_Z b) by now apply inject_Z_pos.
  pose proof (Z.div_mod a b ltac:(lia)) as E.
  pose proof (Z.mod_pos_bound a b Hb) as M.
  assert (Hi : / inject_Z b * inject_Z b == 1)
    by (rewrite Qmult_comm; apply Qmult_inv_r; lra).
  split; [ | split].
  - apply Qle_shift_div_l; [exact Hb'|].
    rewrite <- inject_Z_mult, <- Zle_Qle. lia.
  - setoid_replace (inject_Z a / inject_Z b + / inject_Z b)
      with (inject_Z (a + 1) / inject_Z b)
      by (rewrite inject_Z_plus; unfold Qdiv; change (inject_Z 1) with 1; ring).
    apply Qle_shift_div_r; [exact Hb'|].
    change 1 with (inject_Z 1).
    rewrite <- inject_Z_plus, <- inject_Z_mult, <- Zle_Qle. lia.
  - intros Hm. apply Qle_shift_div_l; [exact Hb'|].
    setoid_replace ((inject_Z (a / b) + / inject_Z b) * inject_Z b)
      with (inject_Z (a / b * b + 1))
      by (rewrite inject_Z_plus, inject_Z_mult, Qmult_plus_distr_l, Hi;
          reflexivity).
    rewrite <- Zle_Qle. lia.
Qed.

Lemma Qfloor_lower (n : Z) (z : Q) : inject_Z n <= z -> (n <= Qfloor z)%Z.
Proof. intros H. rewrite <- (Qfloor_Z n). now apply Qfloor_resp_le. Qed.

Lemma Qfloor_upper (n : Z) (z : Q) : z < inject_Z n + 1 -> (Qfloor z <= n)%Z.
Proof.
  intros H. pose proof (Qfloor_le z) as L.
  assert (K : inject_Z (Qfloor z) < inject_Z (n + 1)).
  { rewrite inject_Z_plus. change (inject_Z 1) with 1. lra. }
  rewrite <- Zlt_Qlt in K. lia.
Qed.

(** [exact_percent k N] is the integer nearest to [100 * k / N], the half
    going up: [exact_percent k N - 1/2 <= 100 * k / N < exact_percent k N + 1/2]. *)
Lemma exact_percent_nearest (k N : nat) :
  (0 < N)%nat ->
  (2 * Z.of_nat N * exact_percent k N - Z.of_nat N <= 200 * Z.of_nat k
   < 2 * Z.of_nat N * exact_percent k N + Z.of_nat N)%Z.
Proof.
  intros HN. unfold exact_percent.
  pose proof (Z.div_mod (200 * Z.of_nat k + Z.of_nat N) (2 * Z.of_nat N) ltac:(lia)) as E.
  pose proof (Z.mod_pos_bound (200 * Z.of_nat k + Z.of_nat N) (2 * Z.of_nat N)
                ltac:(lia)) as M.
  lia.
Qed.

(** It is [Math.round(k / N * 100)] with the quotient and the product
    taken exactly, without rounding to binary64. *)
Lemma exact_percent_unrounded (k N : nat) :
  (0 < N)%nat ->
  Math_round (number_of_nat k / number_of_nat N * 100) = exact_percent k N.
Proof.
  intros HN. unfold Math_round, exact_percent.
  set (a := (200 * Z.of_nat k + Z.of_nat N)%Z).
  set (b := (2 * Z.of_nat N)%Z).
  assert (Hb : (0 < b)%Z) by (unfold b; lia).
  assert (Eab : number_of_nat k / number_of_nat N * 100 + (1 # 2)
                == inject_Z a / inject_Z b).
  { unfold a, b, number_of_nat.
    rewrite inject_Z_plus, !inject_Z_mult.
    change (inject_Z 200) with 200. change (inject_Z 2) with 2.
    field. unfold Qeq. simpl. lia. }
  rewrite (Qfloor_comp _ _ Eab).
  destruct (div_frame a b Hb) as (F1 & F2 & _).
  assert (Hinv : 0 < / inject_Z b) by (apply Qinv_lt_0_compat, inject_Z_pos, Hb).
  apply Z.le_antisymm.
  - apply Qfloor_upper. lra.
  - apply Qfloor_lower. exact F1.
Qed.

(** The value computed for record [i] of [N] is the ordinary rounding of
    [100 * (i + 1) / N], except that it may be one less when that quotient
    is exactly halfway between two integers. *)
Lemma progress_of_exact (i N : nat) :
  (i < N)%nat -> (Z.of_nat N < 2 ^ 32)%Z ->
  near_percent (i + 1) N (progress_of i N).
Proof.
  intros Hi HN.
  unfold near_percent, progress_of, Math_round, js_mul, js_div, exact_percent, halfway.
  set (k := (i + 1)%nat).
  set (x := number_of_nat k / number_of_nat N).
  set (a := (200 * Z.of_nat k + Z.of_nat N)%Z).
  set (b := (2 * Z.of_nat N)%Z).
  assert (Hb : (0 < b)%Z) by (unfold b; lia).
  assert (Hx : 0 < x) by (apply ratio_pos; unfold k; lia).
  assert (Hx1 : x <= 1).
  { unfold x, number_of_nat. apply Qle_shift_div_r.
    - apply inject_Z_pos. lia.
    - rewrite Qmult_1_l, <- Zle_Qle. unfold k. lia. }
  destruct (fl_error x Hx) as [Q1 Q2].
  assert (Hq : 0 < fl x) by apply (fl_positive x Hx).
  assert (Hy : 0 < fl x * 100) by lra.
  destruct (fl_error (fl x * 100) Hy) as [P1 P2].
  set (p := fl (fl x * 100)) in *.
  set (q := fl x) in *.
  assert (Eab : inject_Z a / inject_Z b == 100 * x + (1 # 2)).
  { unfold a, b, x, number_of_nat.
    rewrite inject_Z_plus, !inject_Z_mult.
    change (inject_Z 200) with 200. change (inject_Z 2) with 2.
    field. unfold Qeq. simpl. lia. }
  destruct (div_frame a b Hb) as (F1 & F2 & F3).
  assert (Hinv : 300 * u53 < / inject_Z b).
  { apply Qlt_le_trans with (1 # 8589934592); [reflexivity|].
    apply Qle_shift_inv_l; [now apply inject_Z_pos|].
    assert (B : inject_Z b <= 8589934592)
      by (change 8589934592 with (inject_Z (2 ^ 33)); rewrite <- Zle_Qle;
          unfold b; lia).
    lra. }
  unfold u53 in *.
  assert (Up : (Qfloor (p + (1 # 2)) <= a / b)%Z) by (apply Qfloor_upper; lra).
  assert (Lo : (a / b - 1 <= Qfloor (p + (1 # 2)))%Z).
  { apply Qfloor_lower.
    replace (a / b - 1)%Z with (a / b + -1)%Z by lia.
    rewrite inject_Z_plus. change (inject_Z (-1)) with (-1).
    assert (0 < / inject_Z b) by lra. lra. }
  destruct (Z.eqb_spec (a mod b) 0) as [T | T].
  - destruct (Z.eq_dec (Qfloor (p + (1 # 2))) (a / b)) as [E | E].
    + left. exact E.
    + right. split; [reflexivity | lia].
  - left. apply Z.le_antisymm; [exact Up|].
    apply Qfloor_lower. specialize (F3 T). lra.
Qed.

Lemma Forall2_map_seq {A : Type} (P : nat -> A -> Prop) (f : nat -> A) (i len : nat) :
  (forall j, (i <= j < i + len)%nat -> P j (f j)) ->
  Forall2 P (seq i len) (map f (seq i len)).
Proof.
  revert i. induction len as [ | len IH]; intros i H; cbn [seq map]; constructor.
  - apply H. lia.
  - apply IH. intros j Hj. apply H. lia.
Qed.


Lemma progress_values_app (a b : list Event) :
  progress_values (a ++ b) = progress_values a ++ progress_values b.
Proof. apply flat_map_app. Qed.

Lemma progress_values_remote (evs : list Event) :
  forallb is_remote evs = true -> progress_values evs = [].
Proof.
  induction evs as [ | ev evs IH]; [reflexivity|]. simpl.
  intros H. apply andb_true_iff in H as [Hev Hevs].
  rewrite (IH Hevs). now destruct ev.
Qed.

(* ===================================================================== *)
(** ** One record: [updateDataverseRecord] *)
(* ===================================================================== *)

Lemma RecordRuns_progress (N i : nat) (rows : list ExcelRow) (evs : list Event) :
  RecordRuns N i rows evs ->
  progress_values evs = map (fun j => progress_of j N) (seq i (length rows)).
Proof.
  induction 1 as [ i | i row rows calls evs Hcalls _ IH]; [reflexivity|].
  change (progress_values (calls ++ EvModalProgress (progress_of i N) :: evs)
          = progress_of i N :: map (fun j => progress_of j N) (seq (S i) (length rows))).
  rewrite progress_values_app, (progress_values_remote _ Hcalls).
  simpl. now rewrite IH.
Qed.

Lemma primary_lookups_app (a b : list Event) :
  primary_lookups (a ++ b) = primary_lookups a ++ primary_lookups b.
Proof. apply flat_map_app. Qed.

Section EngineFacts.

Context {Remote : Type} {webAPI : WebApi Remote}.

Lemma new_events_app (w w' : World Remote) (evs : list Event) :
  trace w' = trace w ++ evs -> new_events w w' = evs.
Proof.
  unfold new_events. intros ->.
  rewrite skipn_app, skipn_all, Nat.sub_diag. reflexivity.
Qed.

Ltac settle_retrieve :=
  match goal with
  | |- context [webAPI_retrieveMultipleRecords ?e0 ?q0 ?s0] =>
      destruct (webAPI_retrieveMultipleRecords e0 q0 s0) as [[?error | ?response] ?store] eqn:?Hcall
  end; cbn [remote trace _parsedData].

Ltac settle_update :=
  match goal with
  | |- context [webAPI_updateRecord ?e0 ?i0 ?d0 ?s0] =>
      destruct (webAPI_updateRecord e0 i0 d0 s0) as [[?error | []] ?store] eqn:?Hcall
  end; cbn [remote trace _parsedData].

Ltac conjs := repeat match goal with |- _ /\ _ => split end.

(** Closes a goal [exists r w' evs, (inr R, W) = (inr r, w') /\ ...] once the
    run has been evaluated. *)
Ltac finish_run :=
  do 3 eexists; split; [reflexivity | ];
  cbn [remote trace _parsedData]; rewrite <- ?app_assoc; cbn [app].

Lemma lookup_spec (row : ExcelRow) (cleanId : string) (w : World Remote) :
  exists found w' evs,
    lookup row cleanId w = (inr found, w')
    /\ _parsedData w' = _parsedData w
    /\ trace w' = trace w ++ evs
    /\ forallb is_remote evs = true
    /\ filter is_update evs = []
    /\ primary_lookups evs = [query1 cleanId]
    /\ (forall early, found = inl early ->
          early = {| success := false; recordId := ID row;
                     error := Some ("Record '" ++ cleanId ++ "' not found in entity")%string |}
          \/ exists error3,
               early = {| success := false; recordId := ID row;
                          error := Some ("Entity access error: "
                                         ++ or_else (message error3) "Unknown error")%string |}).
Proof.
  unfold lookup, try_catch, bind, ret, retrieveMultipleRecords.
  settle_retrieve.
  - settle_retrieve.
    + settle_retrieve; finish_run;
        (conjs; try reflexivity; intros early E; injection E as <-;
         first [left; reflexivity | right; eexists; reflexivity]).
    + finish_run. conjs; try reflexivity. discriminate.
  - finish_run. conjs; try reflexivity. discriminate.
Qed.

(** The payload is empty exactly when both fields are empty after trimming. *)
Lemma build_updateData_empty (row : ExcelRow) :
  build_updateData row = [] <-> trim (Response row) = "" /\ trim (Notes row) = "".
Proof.
  unfold build_updateData.
  destruct (truthy (Response row)) eqn:TR; destruct (truthy (Notes row)) eqn:TN;
    try (apply truthy_false in TR; rewrite TR);
    try (apply truthy_false in TN; rewrite TN);
    rewrite ?trim_empty; cbn [andb negb app];
    try destruct (trim (Response row) =? "") eqn:ER;
    try destruct (trim (Notes row) =? "") eqn:EN;
    cbn [andb negb app];
    rewrite ?String.eqb_eq in *; rewrite ?String.eqb_neq in *;
    split; try tauto; try discriminate; intros [? ?]; congruence.
Qed.

(** One record is always turned into an outcome value; the calls it makes
    are remote calls only, the first of them the filtered lookup on the
    primary collection. *)
Lemma updateDataverseRecord_spec (row : ExcelRow) (w : World Remote) :
  exists r w' evs,
    updateDataverseRecord row w = (inr r, w')
    /\ Outcome row r
    /\ _parsedData w' = _parsedData w
    /\ trace w' = trace w ++ evs
    /\ forallb is_remote evs = true
    /\ primary_lookups evs = [query1 (trim (ID row))].
Proof.
  destruct (lookup_spec row (trim (ID row)) w)
    as (found & w1 & evs1 & Hrun & Hpd & Htr & Hrem & _ & Hlk & Hearly).
  unfold updateDataverseRecord, updateDataverseRecord_try, try_catch, bind.
  rewrite Hrun.
  assert (Hlk1 : forall ev, is_remote ev = true -> primary_lookups [ev] = [] ->
                   forallb is_remote (evs1 ++ [ev]) = true
                   /\ primary_lookups (evs1 ++ [ev]) = [query1 (trim (ID row))]).
  { intros ev Hev Hnone. split.
    - rewrite forallb_app, Hrem. simpl. now rewrite Hev.
    - unfold primary_lookups in *. rewrite flat_map_app, Hlk, Hnone. reflexivity. }
  destruct found as [early | [response | ]].
  - unfold ret. exists early, w1, evs1. conjs; auto.
    destruct (Hearly early eq_refl) as [-> | [error3 ->]]; constructor.
  - destruct (entities response) as [ | existingRecord others].
    + unfold ret. do 3 eexists. conjs; eauto. constructor.
    + destruct (length (build_updateData row) =? 0)%nat.
      * unfold ret. do 3 eexists. conjs; eauto. constructor.
      * unfold updateRecord, ret. settle_update.
        -- exists {| success := false; recordId := ID row;
                     error := Some ("Update failed: "
                                    ++ or_else (message error0)
                                         (or_else (Some (toStr error0)) "Unknown error"))%string |}.
           do 2 eexists. split; [reflexivity|]. cbn [remote trace _parsedData].
           rewrite Htr, <- app_assoc.
           conjs; auto; try constructor; apply Hlk1; reflexivity.
        -- do 3 eexists. split; [reflexivity|]. cbn [remote trace _parsedData].
           rewrite Htr, <- app_assoc.
           conjs; auto; try constructor; apply Hlk1; reflexivity.
  - unfold ret. do 3 eexists. conjs; eauto. constructor.
Qed.

(** The record loop never throws: it appends one outcome per record, in
    order, whatever the outcomes of the records before. *)
Lemma processLoop_spec (rows : list ExcelRow) :
  forall (i N : nat) (results : list UpdateResult) (w : World Remote),
  exists outs w' evs,
    processLoop rows i N results w = (inr (results ++ outs), w')
    /\ Forall2 Outcome rows outs
    /\ _parsedData w' = _parsedData w
    /\ trace w' = trace w ++ evs
    /\ RecordRuns N i rows evs
    /\ primary_lookups evs = map (fun row => query1 (trim (ID row))) rows.
Proof.
  induction rows as [ | row rest IH]; intros i N results w.
  - exists [], w, []. rewrite !app_nil_r. conjs; try reflexivity; constructor.
  - cbn [processLoop].
    unfold bind, try_catch, updateModalStatus, updateModalProgress, emit.
    set (w1 := {| remote := remote w; _parsedData := _parsedData w;
                  trace := trace w ++ [EvModalStatus (processing_message i N row) SevInfo] |}).
    destruct (updateDataverseRecord_spec row w1)
      as (r & w2 & calls & Hrun & Hout & Hpd & Htr & Hrem & Hlk).
    rewrite Hrun. unfold ret.
    set (w3 := {| remote := remote w2; _parsedData := _parsedData w2;
                  trace := trace w2 ++ [EvModalProgress (progress_of i N)] |}).
    destruct (IH (S i) N (results ++ [r]) w3)
      as (outs & w' & evs & Hloop & Houts & Hpd' & Htr' & Hruns & Hlks).
    rewrite Hloop.
    exists (r :: outs), w',
      (EvModalStatus (processing_message i N row) SevInfo
       :: calls ++ EvModalProgress (progress_of i N) :: evs).
    conjs.
    + now rewrite <- app_assoc.
    + now constructor.
    + rewrite Hpd'. subst w3 w1. cbn [_parsedData] in *. exact Hpd.
    + rewrite Htr'. subst w3. cbn [trace]. rewrite Htr. subst w1. cbn [trace].
      rewrite <- !app_assoc. reflexivity.
    + now constructor.
    + change (primary_lookups (calls ++ EvModalProgress (progress_of i N) :: evs)
              = query1 (trim (ID row)) :: map (fun row => query1 (trim (ID row))) rest).
      rewrite primary_lookups_app, Hlk.
      change (primary_lookups (EvModalProgress (progress_of i N) :: evs))
        with (primary_lookups evs).
      now rewrite Hlks.
Qed.

Lemma displayModalResults_spec (results : list UpdateResult) (w : World Remote) :
  displayModalResults results w
  = (inr tt, {| remote := remote w; _parsedData := _parsedData w;
                trace := trace w ++ closing_events results |}).
Proof.
  unfold displayModalResults, closing_events, bind, emit, showModalFooter,
    updateModalStatus, emit.
  cbn [remote _parsedData trace].
  destruct (0 <? length (filter (fun r => success r) results))%nat;
    cbn [remote _parsedData trace]; rewrite <- !app_assoc; reflexivity.
Qed.

Lemma processDataverseUpdates_spec (w : World Remote) :
  _parsedData w <> [] ->
  exists results w' evs,
    processDataverseUpdates w = (inr results, w')
    /\ Forall2 Outcome (_parsedData w) results
    /\ _parsedData w' = _parsedData w
    /\ trace w' = trace w ++ evs ++ closing_events results
    /\ RecordRuns (length (_parsedData w)) 0 (_parsedData w) evs
    /\ primary_lookups evs = map (fun row => query1 (trim (ID row))) (_parsedData w).
Proof.
  intros Hne. unfold processDataverseUpdates, bind, get_parsedData.
  destruct (_parsedData w) as [ | row rest] eqn:Epd; [congruence|].
  replace (length (row :: rest) =? 0)%nat with false by reflexivity.
  destruct (processLoop_spec (row :: rest) 0 (length (row :: rest)) [] w)
    as (outs & w1 & evs & Hloop & Houts & Hpd & Htr & Hruns & Hlks).
  rewrite Hloop. cbn [app]. rewrite displayModalResults_spec. unfold ret.
  exists outs. do 2 eexists. split; [reflexivity|].
  cbn [remote _parsedData trace]. rewrite Htr, <- app_assoc. conjs; auto.
  now rewrite Hpd.
Qed.

Lemma processDataverseUpdates_empty (w : World Remote) :
  _parsedData w = [] ->
  processDataverseUpdates w
  = (inr [], {| remote := remote w; _parsedData := _parsedData w;
                trace := trace w ++ [EvModalStatus "No data to process" SevError;
                                     EvModalFooter] |}).
Proof.
  intros E. unfold processDataverseUpdates, bind, get_parsedData.
  rewrite E. cbn [length Nat.eqb].
  unfold updateModalStatus, showModalFooter, emit, ret.
  cbn [remote _parsedData trace]. rewrite <- app_assoc. now rewrite E.
Qed.

(* --------------------------------------------------------------------- *)
(** *** The claims about the reconciliation engine *)
(* --------------------------------------------------------------------- *)



(** C4. A record whose response and notes are both empty after trimming,
    and whose lookup phase ends with a response holding at least one
    entity, gets the "nothing to update" outcome with [success = false],
    and no update call is made for it. *)
Theorem empty_record_is_not_updated
        (row : ExcelRow) (w : World Remote) (response : RetrieveMultipleResponse) :
  trim (Response row) = "" ->
  trim (Notes row) = "" ->
  fst (lookup row (trim (ID row)) w) = inr (inr (Some response)) ->
  entities response <> [] ->
  fst (updateDataverseRecord row w)
  = inr {| success := false; recordId := ID row;
           error := Some "No data to update (Response and Notes are empty)" |}
  /\ filter is_update (new_events w (snd (updateDataverseRecord row w))) = [].
Proof.
  intros HR HN Hfound Hent.
  assert (Hpayload : build_updateData row = [])
    by (apply build_updateData_empty; auto).
  destruct (lookup_spec row (trim (ID row)) w)
    as (found & w1 & evs & Hrun & _ & Htr & _ & Hnoupd & _).
  rewrite Hrun in Hfound. cbn [fst] in Hfound. injection Hfound as ->.
  unfold updateDataverseRecord, updateDataverseRecord_try, try_catch, bind.
  rewrite Hrun.
  destruct (entities response) as [ | existingRecord others]; [congruence|].
  rewrite Hpayload. cbn [length Nat.eqb]. unfold ret. cbn [fst snd].
  split; [reflexivity|].
  now rewrite (new_events_app _ _ _ Htr).
Qed.

(** C5. For a grid with fewer than two rows [parseExcelData] throws the
    empty-input error, and the upload stops there: the error is reported
    and the footer shown, [_parsedData] is left as it was, and no record is
    processed (no remote call and no per-record event is made). *)
Theorem short_grid_is_rejected (jsonData : list Row) (w : World Remote) :
  (length jsonData < 2)%nat ->
  parseExcelData jsonData = inl (new_Error EMPTY_INPUT_MESSAGE)
  /\ uploadAndProcessFile (Some (inr jsonData)) w
     = (inr tt,
        {| remote := remote w; _parsedData := _parsedData w;
           trace := trace w ++
             [EvShowModal;
              EvModalStatus "Parsing Excel file..." SevInfo;
              EvModalProgress 0;
              EvModalProgress 30;
              EvModalStatus ("Error: " ++ toStr (new_Error EMPTY_INPUT_MESSAGE)) SevError;
              EvModalFooter] |}).
Proof.
  intros Hlen.
  assert (E : parseExcelData jsonData = inl (new_Error EMPTY_INPUT_MESSAGE)).
  { unfold parseExcelData.
    destruct (Nat.ltb_spec (length jsonData) 2); [reflexivity | lia]. }
  split; [exact E|].
  unfold uploadAndProcessFile, bind, try_catch, lift, showModal,
    updateModalStatus, updateModalProgress, showModalFooter, emit.
  cbn [remote _parsedData trace]. rewrite E.
  cbn [remote _parsedData trace]. rewrite <- !app_assoc. reflexivity.
Qed.

Lemma progress_values_closing (results : list UpdateResult) :
  progress_values (closing_events results) = [].
Proof.
  unfold closing_events.
  now destruct (0 <? length (filter (fun r => success r) results))%nat.
Qed.

Lemma progress_of_final (N : nat) :
  (0 < N)%nat -> last (map (fun j => progress_of j N) (seq 0 N)) 0%Z = 100%Z.
Proof.
  intros HN. destruct N as [ | n]; [lia|].
  rewrite seq_S, map_app. cbn [map]. rewrite last_last.
  replace (0 + n)%nat with (S n - 1)%nat by lia.
  now apply progress_of_last.
Qed.

Lemma progress_of_formula (N len i : nat) :
  map (fun j => progress_of j N) (seq i len)
  = map (fun k => Math_round (js_mul (js_div (number_of_nat k) (number_of_nat N)) 100))
        (seq (S i) len).
Proof.
  rewrite <- seq_shift, map_map. apply map_ext. intros j.
  unfold progress_of. now rewrite Nat.add_1_r.
Qed.

(** C6 (as amended). For a batch of N >= 1 records (N below 2^32, as every
    array length is) the trace of the run is, record by record, the status
    line of the record, its remote calls and then its progress value,
    followed by the closing events.  The k-th progress value is
    100 * k / N rounded to the nearest integer, a half going up, except
    that it may be one less when 100 * k / N is exactly halfway between two
    integers: the code computes Math.round((k / N) * 100) on binary64
    numbers, the quotient and the product each rounded to the nearest
    binary64 value.  There is one value for each record, and the last one
    is 100. *)
Theorem progress_after_each_record (w : World Remote) :
  _parsedData w <> [] ->
  (Z.of_nat (length (_parsedData w)) < 2 ^ 32)%Z ->
  (exists loop_events results,
      new_events w (snd (processDataverseUpdates w))
      = loop_events ++ closing_events results
      /\ RecordRuns (length (_parsedData w)) 0 (_parsedData w) loop_events)
  /\ Forall2 (fun k v => near_percent k (length (_parsedData w)) v)
       (seq 1 (length (_parsedData w)))
       (progress_values (new_events w (snd (processDataverseUpdates w))))
  /\ progress_values (new_events w (snd (processDataverseUpdates w)))
     = map (fun k => Math_round (js_mul (js_div (number_of_nat k)
                                                 (number_of_nat (length (_parsedData w))))
                                         100))
           (seq 1 (length (_parsedData w)))
  /\ last (progress_values (new_events w (snd (processDataverseUpdates w)))) 0%Z = 100%Z.
Proof.
  intros Hne Hlen.
  destruct (processDataverseUpdates_spec w Hne)
    as (results & w' & evs & Hrun & _ & _ & Htr & Hruns & _).
  rewrite Hrun. cbn [snd]. rewrite (new_events_app _ _ _ Htr).
  assert (Hvalues : progress_values (evs ++ closing_events results)
                    = map (fun j => progress_of j (length (_parsedData w)))
                          (seq 0 (length (_parsedData w)))).
  { rewrite progress_values_app, progress_values_closing, app_nil_r.
    exact (RecordRuns_progress _ _ _ _ Hruns). }
  conjs.
  - eauto.
  - rewrite Hvalues, progress_of_formula. apply Forall2_map_seq. intros k Hk.
    pose proof (progress_of_exact (k - 1) (length (_parsedData w))
                  ltac:(lia) Hlen) as H.
    unfold progress_of in H. replace (k - 1 + 1)%nat with k in H by lia.
    exact H.
  - rewrite Hvalues. apply progress_of_formula.
  - rewrite Hvalues.
    apply progress_of_final.
    destruct (_parsedData w); [congruence | simpl; lia].
Qed.



End EngineFacts.

(* ===================================================================== *)
(** ** The engine claims on the concrete store *)
(* ===================================================================== *)



Lemma empty_record_is_not_updated_witness :
  fst (updateDataverseRecord {| ID := "A2"; Response := "  "; Notes := "" |}
         (Demo.world ["A2"] []))
  = inr {| success := false; recordId := "A2";
           error := Some "No data to update (Response and Notes are empty)" |}
  /\ filter is_update
       (new_events (Demo.world ["A2"] [])
          (snd (updateDataverseRecord {| ID := "A2"; Response := "  "; Notes := "" |}
                  (Demo.world ["A2"] [])))) = [].
Proof.
  apply (empty_record_is_not_updated
           {| ID := "A2"; Response := "  "; Notes := "" |} (Demo.world ["A2"] [])
           {| entities := [ {| afsdc_questionresponseinstanceid := "guid-A2";
                               afsdc_name := "A2" |} ] |}).
  - reflexivity.
  - reflexivity.
  - reflexivity.
  - simpl. discriminate.
Defined.

Lemma short_grid_is_rejected_witness :
  parseExcelData [RArray [CStr "ID"; CStr "Resp"; CStr "Notes"]]
  = inl (new_Error EMPTY_INPUT_MESSAGE)
  /\ uploadAndProcessFile (Some (inr [RArray [CStr "ID"; CStr "Resp"; CStr "Notes"]]))
       Demo.batch
     = (inr tt,
        {| remote := remote Demo.batch; _parsedData := _parsedData Demo.batch;
           trace := trace Demo.batch ++
             [EvShowModal;
              EvModalStatus "Parsing Excel file..." SevInfo;
              EvModalProgress 0;
              EvModalProgress 30;
              EvModalStatus ("Error: " ++ toStr (new_Error EMPTY_INPUT_MESSAGE)) SevError;
              EvModalFooter] |}).
Proof.
  apply (short_grid_is_rejected [RArray [CStr "ID"; CStr "Resp"; CStr "Notes"]] Demo.batch).
  simpl. lia.
Defined.

Lemma progress_after_each_record_witness :
  (exists loop_events results,
      new_events Demo.batch (snd (processDataverseUpdates Demo.batch))
      = loop_events ++ closing_events results
      /\ RecordRuns (length (_parsedData Demo.batch)) 0 (_parsedData Demo.batch)
           loop_events)
  /\ Forall2 (fun k v => near_percent k (length (_parsedData Demo.batch)) v)
       (seq 1 (length (_parsedData Demo.batch)))
       (progress_values (new_events Demo.batch (snd (processDataverseUpdates Demo.batch))))
  /\ progress_values (new_events Demo.batch (snd (processDataverseUpdates Demo.batch)))
     = map (fun k => Math_round (js_mul (js_div (number_of_nat k)
                                                 (number_of_nat
                                                    (length (_parsedData Demo.batch))))
                                         100))
           (seq 1 (length (_parsedData Demo.batch)))
  /\ last (progress_values
             (new_events Demo.batch (snd (processDataverseUpdates Demo.batch)))) 0%Z
     = 100%Z.
Proof.
  apply (progress_after_each_record Demo.batch).
  - simpl. discriminate.
  - simpl. lia.
Defined.

(** C6, the claim as stated fails: in a batch of forty records the value
    emitted after the 23rd record is 57, whereas 23 / 40 * 100 is 57.5 and
    rounds to 58; so the values emitted are not round(k / 40 * 100) for
    k = 1 .. 40. *)
Lemma progress_of_record_23_of_40_counterexample :
  length (_parsedData forty_records) = 40%nat
  /\ nth 22 (progress_values
               (new_events forty_records (snd (processDataverseUpdates forty_records))))
         0%Z = 57%Z
  /\ Math_round (number_of_nat 23 / number_of_nat 40 * 100) = 58%Z
  /\ exact_percent 23 40 = 58%Z
  /\ progress_values
       (new_events forty_records (snd (processDataverseUpdates forty_records)))
     <> map (fun k => exact_percent k 40) (seq 1 40).
Proof.
  assert (E : nth 22 (progress_values
                        (new_events forty_records
                           (snd (processDataverseUpdates forty_records)))) 0%Z = 57%Z)
    by (vm_compute; reflexivity).
  split; [reflexivity|].
  split; [exact E|].
  split; [reflexivity|].
  split; [reflexivity|].
  intros H. rewrite H in E. vm_compute in E. discriminate E.
Qed.


(* ===================================================================== *)
(** ** More about the extractor *)
(* ===================================================================== *)

Lemma trimStart_starts_clean (s : string) : starts_clean (trimStart s).
Proof.
  induction s as [ | c s IH]; simpl; [exact I|].
  destruct (is_ws c) eqn:E; [exact IH | exact E].
Qed.

Lemma trimStart_fixed (s : string) : starts_clean s -> trimStart s = s.
Proof.
  destruct s as [ | c s]; simpl; [reflexivity|]. now intros ->.
Qed.

Lemma trimEnd_starts_clean (s : string) : starts_clean s -> starts_clean (trimEnd s).
Proof.
  destruct s as [ | c s]; simpl; [exact id|]. intros Hc.
  destruct (trimEnd s); [rewrite Hc|]; exact Hc.
Qed.

Lemma trimEnd_idempotent (s : string) : trimEnd (trimEnd s) = trimEnd s.
Proof.
  induction s as [ | c s IH]; [reflexivity|]. simpl.
  destruct (trimEnd s) as [ | d t] eqn:E.
  - destruct (is_ws c) eqn:Ec; [reflexivity|]. simpl. now rewrite Ec.
  - change (trimEnd (String c (String d t))) with
      (match trimEnd (String d t) with
       | EmptyString => if is_ws c then EmptyString else String c EmptyString
       | u => String c u
       end).
    now rewrite IH.
Qed.

Lemma trim_idempotent (s : string) : trim (trim s) = trim s.
Proof.
  unfold trim.
  rewrite (trimStart_fixed (trimEnd (trimStart s))).
  - apply trimEnd_idempotent.
  - apply trimEnd_starts_clean, trimStart_starts_clean.
Qed.

Lemma guarded_trim (c : Cell) (b : bool) (t : string) :
  (if b then Exc.bind (toString c) (fun s => Exc.ret (trim s)) else Exc.ret "") = inr t ->
  trim t = t.
Proof.
  destruct b.
  - destruct (toString c) as [e | s]; simpl; [discriminate|].
    intros [= <-]. apply trim_idempotent.
  - intros [= <-]. reflexivity.
Qed.

Lemma row_id_trimmed (cells : list Cell) (id : string) :
  row_id cells = inr id -> trim id = id.
Proof. unfold row_id. apply guarded_trim. Qed.

Lemma row_response_trimmed (cells : list Cell) (response : string) :
  row_response cells = inr response -> trim response = response.
Proof.
  unfold row_response.
  destruct ((2 <? length cells)%nat && nonblank (at_ cells 2)).
  - apply (guarded_trim _ true).
  - apply guarded_trim.
Qed.

Lemma row_notes_trimmed (cells : list Cell) (response notes : string) :
  row_notes cells response = inr notes -> trim notes = notes.
Proof.
  unfold row_notes.
  destruct ((3 <? length cells)%nat && nonblank (at_ cells 3)).
  - apply (guarded_trim _ true).
  - apply guarded_trim.
Qed.

Lemma parseRow_clean (row : Row) (parsedData parsedData' : list ExcelRow) :
  parseRow row parsedData = inr parsedData' ->
  Forall clean_record parsedData -> Forall clean_record parsedData'.
Proof.
  destruct row as [cells | v]; [ | now intros [= <-]].
  unfold parseRow. destruct (1 <=? length cells)%nat; [ | now intros [= <-]].
  destruct (row_id cells) as [e | id] eqn:Eid; [discriminate|].
  destruct (row_response cells) as [e | response] eqn:Er; [discriminate|].
  simpl. destruct (row_notes cells response) as [e | notes] eqn:En; [discriminate|].
  simpl. destruct (truthy id) eqn:T; intros [= <-] H; [ | exact H].
  apply Forall_app. split; [exact H|]. constructor; [ | constructor].
  repeat split; simpl.
  - now apply truthy_true.
  - exact (row_id_trimmed _ _ Eid).
  - exact (row_response_trimmed _ _ Er).
  - exact (row_notes_trimmed _ _ _ En).
Qed.

Lemma parseRows_clean (rows : list Row) :
  forall parsedData records,
    parseRows rows parsedData = inr records ->
    Forall clean_record parsedData -> Forall clean_record records.
Proof.
  induction rows as [ | row rest IH]; intros parsedData records.
  - now intros [= <-].
  - simpl. destruct (parseRow row parsedData) as [e | parsedData'] eqn:E; [discriminate|].
    simpl. intros Hrest H. eapply IH; [exact Hrest|]. eapply parseRow_clean; eassumption.
Qed.

Lemma parseExcelData_clean (jsonData : list Row) (records : list ExcelRow) :
  parseExcelData jsonData = inr records -> Forall clean_record records.
Proof.
  unfold parseExcelData. destruct (length jsonData <? 2)%nat; [discriminate|].
  intros H. eapply parseRows_clean; [exact H | constructor].
Qed.

(** X1. Every record the extractor returns has a non-empty ID, and its ID,
    Response and Notes are free of surrounding white space (trimming them
    again changes nothing). *)
Theorem extracted_records_are_clean (jsonData : list Row) (records : list ExcelRow) :
  parseExcelData jsonData = inr records -> Forall clean_record records.
Proof.
  unfold parseExcelData. destruct (length jsonData <? 2)%nat; [discriminate|].
  intros H. apply (parseRows_clean (skipn 1 jsonData) [] records H).
  constructor.
Qed.

Lemma extracted_records_are_clean_witness :
  Forall clean_record
    [ {| ID := "R1"; Response := "Yes"; Notes := "a b" |};
      {| ID := "7"; Response := ""; Notes := "" |} ].
Proof.
  apply (extracted_records_are_clean
           [RArray [CStr "ID"];
            RArray [CStr " R1 "; CStr ""; CStr "  Yes"; CStr "a b  "];
            RArray [CStr "   "; CStr "dropped"];
            RArray [CNum 7]]).
  reflexivity.
Defined.

(** X2. A data row that is an array either contributes nothing or
    contributes a record whose notes are the trimmed text of column 3 when
    that cell is present and is not the empty string, and are empty
    otherwise: column 2 never supplies the notes. *)
Theorem notes_come_from_column_3 (cells : list Cell) (parsedData : list ExcelRow) :
  parseRow (RArray cells) parsedData = inr parsedData
  \/ exists id response,
       parseRow (RArray cells) parsedData
       = inr (parsedData ++ [ {| ID := id; Response := response;
                                 Notes := notes_rule cells |} ]).
Proof.
  unfold parseRow. destruct (1 <=? length cells)%nat; [ | now left].
  destruct (row_id_total cells) as [id ->].
  rewrite row_response_rule. simpl.
  rewrite row_notes_rule. simpl. fold (notes_rule cells).
  destruct (truthy id); [right; eauto | now left].
Qed.

Lemma parseRows_inr (rows : list Row) (parsedData : list ExcelRow) :
  exists extracted, parseRows rows parsedData = inr (parsedData ++ extracted)
                    /\ parseRows rows [] = inr extracted.
Proof.
  revert parsedData. induction rows as [ | row rest IH]; intros parsedData.
  - exists []. now rewrite app_nil_r.
  - destruct (parseRow_spec row parsedData) as (e & Ee & _).
    destruct (parseRow_spec row []) as (e0 & Ee0 & _).
    assert (e0 = e).
    { destruct row as [cells | v]; cbn [parseRow] in *.
      - destruct (1 <=? length cells)%nat.
        + destruct (row_id cells) as [? | id]; [discriminate|].
          destruct (row_response cells) as [? | response]; [discriminate|].
          simpl in *. destruct (row_notes cells response) as [? | notes]; [discriminate|].
          simpl in *. destruct (truthy id).
          * injection Ee as Ee. injection Ee0 as Ee0.
            apply app_inv_head in Ee. destruct e, e0; simpl in *; congruence.
          * injection Ee as Ee. injection Ee0 as Ee0.
            rewrite <- (app_nil_r parsedData) in Ee at 1. apply app_inv_head in Ee.
            destruct e, e0; simpl in *; congruence.
        + injection Ee as Ee. injection Ee0 as Ee0.
          rewrite <- (app_nil_r parsedData) in Ee at 1. apply app_inv_head in Ee.
          destruct e, e0; simpl in *; congruence.
      - injection Ee as Ee. injection Ee0 as Ee0.
        rewrite <- (app_nil_r parsedData) in Ee at 1. apply app_inv_head in Ee.
        destruct e, e0; simpl in *; congruence. }
    subst e0. simpl. rewrite Ee, Ee0. simpl.
    destruct (IH (parsedData ++ olist e)) as (x1 & E1 & E1').
    destruct (IH ([] ++ olist e)) as (x2 & E2 & E2').
    rewrite E1. simpl in E2. rewrite E2.
    rewrite E1' in E2'. injection E2' as <-.
    exists (olist e ++ x1). now rewrite app_assoc.
Qed.

Lemma parseRows_app (a b : list Row) (parsedData : list ExcelRow) :
  parseRows (a ++ b) parsedData
  = Exc.bind (parseRows a parsedData) (fun d => parseRows b d).
Proof.
  revert parsedData. induction a as [ | row a IH]; intros parsedData; [reflexivity|].
  simpl. destruct (parseRow row parsedData) as [e | d]; [reflexivity|]. simpl. apply IH.
Qed.

(** X3. Extraction works row by row: the records of a sheet whose data
    rows are [a] followed by [b] are the records of [a] followed by the
    records of [b], whatever the header rows are. *)
Theorem extraction_of_appended_rows
        (header header' : Row) (a b : list Row) (ra rb : list ExcelRow) :
  parseExcelData (header :: a) = inr ra ->
  parseExcelData (header' :: b) = inr rb ->
  parseExcelData (header :: a ++ b) = inr (ra ++ rb).
Proof.
  unfold parseExcelData.
  destruct a as [ | r1 a']; [discriminate|].
  destruct b as [ | r2 b']; [discriminate|].
  cbn [length Nat.ltb Nat.leb skipn app].
  intros Ha Hb.
  change (r1 :: a' ++ r2 :: b') with ((r1 :: a') ++ (r2 :: b')).
  rewrite parseRows_app, Ha. simpl.
  destruct (parseRows_inr (r2 :: b') ra) as (x & E & E0).
  rewrite Hb in E0. injection E0 as <-. exact E.
Qed.

Lemma extraction_of_appended_rows_witness :
  parseExcelData (RArray [CStr "ID"] :: [RArray [CStr "A1"; CStr "x"]]
                                        ++ [RValue CNull; RArray [CStr "A2"]])
  = inr ([ {| ID := "A1"; Response := "x"; Notes := "" |} ]
         ++ [ {| ID := "A2"; Response := ""; Notes := "" |} ]).
Proof.
  apply (extraction_of_appended_rows (RArray [CStr "ID"]) (RArray [])
           [RArray [CStr "A1"; CStr "x"]] [RValue CNull; RArray [CStr "A2"]]);
    reflexivity.
Defined.

(* ===================================================================== *)
(** ** The choice of the sheet *)
(* ===================================================================== *)

Lemma first_not_hidden_spec (workbook : WorkBook) (names : list string)
      (fallback : option string) :
  (Forall (fun n => isHidden workbook n = true) names
   /\ first_not_hidden workbook names fallback = fallback)
  \/ exists before name after,
       names = before ++ name :: after
       /\ Forall (fun n => isHidden workbook n = true) before
       /\ isHidden workbook name = false
       /\ first_not_hidden workbook names fallback = Some name.
Proof.
  induction names as [ | n rest IH].
  - left. split; [constructor | reflexivity].
  - simpl. destruct (isHidden workbook n) eqn:E; simpl.
    + destruct IH as [[Hall Hres] | (before & name & after & -> & Hb & Hn & Hres)].
      * left. split; [now constructor | exact Hres].
      * right. exists (n :: before), name, after. repeat split; auto.
    + right. exists [], n, rest. repeat split; auto.
Qed.

(** X4. The sheet that is decoded is the first sheet of the workbook whose
    metadata carries no [Hidden] property at all; when every sheet carries
    one (whatever its value, 0 included), or when the workbook has no sheet
    metadata, it is the first sheet; it is undefined only for a workbook
    without sheets. *)
Theorem target_sheet_is_first_without_hidden_flag (workbook : WorkBook) :
  (targetSheetName workbook = None <-> SheetNames workbook = [])
  /\ (Workbook_Sheets workbook = None ->
      targetSheetName workbook = hd_error (SheetNames workbook))
  /\ ((Forall (fun n => isHidden workbook n = true) (SheetNames workbook)
       /\ targetSheetName workbook = hd_error (SheetNames workbook))
      \/ exists before name after,
           SheetNames workbook = before ++ name :: after
           /\ Forall (fun n => isHidden workbook n = true) before
           /\ isHidden workbook name = false
           /\ targetSheetName workbook = Some name).
Proof.
  unfold targetSheetName.
  pose proof (first_not_hidden_spec workbook (SheetNames workbook)
                (hd_error (SheetNames workbook))) as H.
  split; [ | split; [ | exact H]].
  - destruct H as [[_ ->] | (before & name & after & E & _ & _ & ->)].
    + destruct (SheetNames workbook); simpl; split; congruence.
    + split; [discriminate|]. rewrite E. now destruct before.
  - intros Hnone.
    destruct (SheetNames workbook) as [ | n rest]; [reflexivity|].
    simpl. unfold isHidden. rewrite Hnone.
    now destruct (indexOf n (SheetNames workbook)).
Qed.

(* ===================================================================== *)
(** ** More about the reconciliation engine *)
(* ===================================================================== *)

Lemma build_updateData_fields (row : ExcelRow) :
  Forall filled_field (build_updateData row).
Proof.
  assert (Hfill : forall key text,
             key = "afsdc_response" \/ key = "afsdc_comments" ->
             truthy text && negb (trim text =? "") = true ->
             filled_field (key, trim text)).
  { intros key text Hkey H. apply andb_true_iff in H as [_ H].
    apply negb_true_iff, String.eqb_neq in H.
    unfold filled_field. cbn [fst snd]. auto using trim_idempotent. }
  unfold build_updateData.
  destruct (truthy (Response row) && negb (trim (Response row) =? "")) eqn:ER;
    destruct (truthy (Notes row) && negb (trim (Notes row) =? "")) eqn:EN;
    cbn [app]; repeat apply Forall_cons; try apply Forall_nil; apply Hfill; auto.
Qed.

Lemma RecordTrace_remote (row : ExcelRow) (calls : list Event) (r : UpdateResult) :
  RecordTrace row calls r -> forallb is_remote calls = true.
Proof.
  intros [calls0 r0 HL | calls0 calls' response r0 HL HA].
  - inversion HL; reflexivity.
  - rewrite forallb_app. inversion HL; inversion HA; reflexivity.
Qed.

Lemma RecordTrace_updates (row : ExcelRow) (calls : list Event) (r : UpdateResult) :
  RecordTrace row calls r -> Forall (update_of row) calls.
Proof.
  intros [calls0 r0 HL | calls0 calls' response r0 HL HA].
  - inversion HL; repeat constructor.
  - apply Forall_app. split.
    + inversion HL; repeat constructor.
    + inversion HA; subst; repeat constructor; assumption.
Qed.

Lemma BatchTrace_results (N i : nat) (rows : list ExcelRow) (evs : list Event)
      (outs : list UpdateResult) :
  BatchTrace N i rows evs outs -> filter is_results evs = [].
Proof.
  induction 1 as [ i | i row rows calls evs r outs Hrec _ IH]; [reflexivity|].
  cbn [filter is_results]. rewrite filter_app. cbn [filter is_results]. rewrite IH, app_nil_r.
  apply RecordTrace_remote in Hrec.
  induction calls as [ | ev calls IHc]; [reflexivity|].
  simpl in Hrec. apply andb_true_iff in Hrec as [Hev Hrest].
  simpl. destruct ev; try discriminate; auto.
Qed.

Lemma BatchTrace_updates (N i : nat) (rows : list ExcelRow) (evs : list Event)
      (outs : list UpdateResult) :
  BatchTrace N i rows evs outs ->
  forall ev, In ev evs -> is_update ev = true ->
             exists row, In row rows /\ update_of row ev.
Proof.
  induction 1 as [ i | i row rows calls evs r outs Hrec _ IH]; intros ev Hin Hup.
  - destruct Hin.
  - destruct Hin as [<- | Hin]; [discriminate|].
    apply in_app_or in Hin as [Hin | [<- | Hin]]; [ | discriminate | ].
    + exists row. split; [now left|].
      apply RecordTrace_updates in Hrec.
      rewrite Forall_forall in Hrec. now apply Hrec.
    + destruct (IH ev Hin Hup) as (row' & Hrow & Hok).
      exists row'. split; [now right | exact Hok].
Qed.

Section EngineMore.

Context {Remote : Type} {webAPI : WebApi Remote}.

Ltac answer_retrieve :=
  match goal with
  | |- context [webAPI_retrieveMultipleRecords ?e0 ?q0 ?s0] =>
      destruct (webAPI_retrieveMultipleRecords e0 q0 s0)
        as [[?error | ?response] ?store] eqn:?Hcall
  end; cbn [remote trace _parsedData].

Ltac answer_update :=
  match goal with
  | |- context [webAPI_updateRecord ?e0 ?i0 ?d0 ?s0] =>
      destruct (webAPI_updateRecord e0 i0 d0 s0) as [[?error | []] ?store] eqn:?Hcall
  end; cbn [remote trace _parsedData].

Ltac and_split := repeat match goal with |- _ /\ _ => split end.

Lemma events_added (w w' : World Remote) (evs : list Event) :
  trace w' = trace w ++ evs -> new_events w w' = evs.
Proof.
  unfold new_events. intros ->.
  rewrite skipn_app, skipn_all, Nat.sub_diag. reflexivity.
Qed.

Lemma lookup_trace (row : ExcelRow) (cleanId : string) (w : World Remote) :
  exists found w' evs,
    lookup row cleanId w = (inr found, w')
    /\ _parsedData w' = _parsedData w
    /\ trace w' = trace w ++ evs
    /\ LookupTrace row cleanId evs found.
Proof.
  unfold lookup, try_catch, bind, ret, retrieveMultipleRecords.
  answer_retrieve.
  - answer_retrieve.
    + answer_retrieve; do 3 eexists; (split; [reflexivity|]);
        cbn [remote trace _parsedData]; rewrite <- !app_assoc; cbn [app];
        and_split; try reflexivity; constructor.
    + do 3 eexists. split; [reflexivity|].
      cbn [remote trace _parsedData]. rewrite <- !app_assoc. cbn [app].
      and_split; try reflexivity; constructor.
  - do 3 eexists. split; [reflexivity|].
    cbn [remote trace _parsedData]. and_split; try reflexivity; constructor.
Qed.

Lemma updateDataverseRecord_trace (row : ExcelRow) (w : World Remote) :
  exists r w' evs,
    updateDataverseRecord row w = (inr r, w')
    /\ _parsedData w' = _parsedData w
    /\ trace w' = trace w ++ evs
    /\ RecordTrace row evs r.
Proof.
  destruct (lookup_trace row (trim (ID row)) w)
    as (found & w1 & evs1 & Hrun & Hpd & Htr & HL).
  unfold updateDataverseRecord, updateDataverseRecord_try, try_catch, bind.
  rewrite Hrun.
  destruct found as [early | [response | ]].
  - unfold ret. exists early, w1, evs1. and_split; auto. now constructor.
  - destruct (entities response) as [ | existingRecord others] eqn:Eent.
    + unfold ret. exists {| success := false; recordId := ID row;
                            error := Some ("Record not found: '" ++ trim (ID row)
                                           ++ "'")%string |}, w1, (evs1 ++ []).
      rewrite app_nil_r. and_split; auto.
      rewrite <- (app_nil_r evs1). econstructor; [exact HL | now constructor].
    + destruct (length (build_updateData row) =? 0)%nat eqn:Elen.
      * unfold ret. do 2 eexists. exists (evs1 ++ []). rewrite app_nil_r.
        and_split; eauto.
        rewrite <- (app_nil_r evs1). econstructor; [exact HL|].
        apply AT_noop; [congruence|].
        apply Nat.eqb_eq in Elen. now apply length_zero_iff_nil.
      * assert (Hne : build_updateData row <> []).
        { intros E. rewrite E in Elen. discriminate. }
        unfold updateRecord, ret. answer_update.
        -- do 2 eexists.
           exists (evs1 ++ [EvUpdate ALTERNATE
                              (afsdc_questionresponseinstanceid existingRecord)
                              (build_updateData row) (inl error0)]).
           split; [reflexivity|]. cbn [remote trace _parsedData].
           rewrite Htr, <- app_assoc. and_split; auto.
           econstructor; [exact HL | ]. eapply AT_rejected; eassumption.
        -- do 2 eexists.
           exists (evs1 ++ [EvUpdate ALTERNATE
                              (afsdc_questionresponseinstanceid existingRecord)
                              (build_updateData row) (inr tt)]).
           split; [reflexivity|]. cbn [remote trace _parsedData].
           rewrite Htr, <- app_assoc. and_split; auto.
           econstructor; [exact HL | ]. eapply AT_updated; eassumption.
  - unfold ret. do 2 eexists. exists (evs1 ++ []). rewrite app_nil_r.
    and_split; eauto.
    rewrite <- (app_nil_r evs1). econstructor; [exact HL | constructor].
Qed.

Lemma processLoop_trace (rows : list ExcelRow) :
  forall (i N : nat) (results : list UpdateResult) (w : World Remote),
  exists outs w' evs,
    processLoop rows i N results w = (inr (results ++ outs), w')
    /\ _parsedData w' = _parsedData w
    /\ trace w' = trace w ++ evs
    /\ BatchTrace N i rows evs outs.
Proof.
  induction rows as [ | row rest IH]; intros i N results w.
  - exists [], w, []. rewrite !app_nil_r. and_split; try reflexivity. constructor.
  - cbn [processLoop].
    unfold bind, try_catch, updateModalStatus, updateModalProgress, emit.
    set (w1 := {| remote := remote w; _parsedData := _parsedData w;
                  trace := trace w ++ [EvModalStatus (processing_message i N row) SevInfo] |}).
    destruct (updateDataverseRecord_trace row w1)
      as (r & w2 & calls & Hrun & Hpd & Htr & Hrec).
    rewrite Hrun. unfold ret.
    set (w3 := {| remote := remote w2; _parsedData := _parsedData w2;
                  trace := trace w2 ++ [EvModalProgress (progress_of i N)] |}).
    destruct (IH (S i) N (results ++ [r]) w3)
      as (outs & w' & evs & Hloop & Hpd' & Htr' & Hbatch).
    rewrite Hloop.
    exists (r :: outs), w',
      (EvModalStatus (processing_message i N row) SevInfo
       :: calls ++ EvModalProgress (progress_of i N) :: evs).
    and_split.
    + now rewrite <- app_assoc.
    + rewrite Hpd'. subst w3 w1. cbn [_parsedData] in *. exact Hpd.
    + rewrite Htr'. subst w3. cbn [trace]. rewrite Htr. subst w1. cbn [trace].
      rewrite <- !app_assoc. reflexivity.
    + now constructor.
Qed.

Lemma processDataverseUpdates_trace (w : World Remote) :
  _parsedData w <> [] ->
  exists results w' evs,
    processDataverseUpdates w = (inr results, w')
    /\ _parsedData w' = _parsedData w
    /\ trace w' = trace w ++ evs ++ closing_events results
    /\ BatchTrace (length (_parsedData w)) 0 (_parsedData w) evs results.
Proof.
  intros Hne. unfold processDataverseUpdates, bind, get_parsedData.
  destruct (_parsedData w) as [ | row rest] eqn:Epd; [congruence|].
  replace (length (row :: rest) =? 0)%nat with false by reflexivity.
  destruct (processLoop_trace (row :: rest) 0 (length (row :: rest)) [] w)
    as (outs & w1 & evs & Hloop & Hpd & Htr & Hbatch).
  rewrite Hloop. cbn [app]. rewrite displayModalResults_spec. unfold ret.
  exists outs. do 2 eexists. split; [reflexivity|].
  cbn [remote _parsedData trace]. rewrite Htr, <- app_assoc. and_split; auto.
  now rewrite Hpd.
Qed.

Ltac record_cases H :=
  let HL := fresh "HL" in
  let HA := fresh "HA" in
  destruct H as [? ? HL | ? ? ? ? HL HA];
  [ inversion HL; subst | inversion HL; subst; inversion HA; subst ].

Lemma RecordTrace_budget (row : ExcelRow) (calls : list Event) (r : UpdateResult) :
  RecordTrace row calls r ->
  (1 <= length calls <= 3)%nat
  /\ (filter is_update calls = []
      \/ exists before u,
           calls = before ++ [u] /\ is_update u = true /\ filter is_update before = []).
Proof.
  intros H. record_cases H; cbn [app length]; (split; [lia|]);
    first [ left; reflexivity
          | right;
            match goal with
            | |- exists before u, ?l = _ /\ _ =>
                exists (removelast l), (last l EvShowModal)
            end;
            split; [reflexivity | split; reflexivity] ].
Qed.

Lemma RecordTrace_success (row : ExcelRow) (calls : list Event) (r : UpdateResult) :
  RecordTrace row calls r ->
  recordId r = ID row
  /\ (success r = true <->
      exists entityType id data, In (EvUpdate entityType id data (inr tt)) calls).
Proof.
  intros H. record_cases H; cbn [app success recordId]; (split; [reflexivity|]); split;
    try discriminate;
    try (intros _; do 3 eexists; cbn [In]; auto 6; fail);
    intros (entityType & id & data & Hin); cbn [In] in Hin;
    repeat (destruct Hin as [Hin | Hin]; [discriminate Hin | ]); destruct Hin.
Qed.

Lemma RecordTrace_rejected (row : ExcelRow) (calls : list Event) (r : UpdateResult)
      (entityType id : string) (data : UpdateData) (e : JsError) :
  RecordTrace row calls r ->
  In (EvUpdate entityType id data (inl e)) calls ->
  r = {| success := false; recordId := ID row;
         error := Some ("Update failed: "
                        ++ or_else (message e)
                             (or_else (Some (toStr e)) "Unknown error"))%string |}.
Proof.
  intros H Hin. record_cases H; cbn [app In] in Hin;
    repeat (destruct Hin as [Hin | Hin];
            [first [discriminate Hin | inversion Hin; subst; reflexivity] | ]);
    destruct Hin.
Qed.

Lemma BatchTrace_length (N i : nat) (rows : list ExcelRow) (evs : list Event)
      (outs : list UpdateResult) :
  BatchTrace N i rows evs outs -> length outs = length rows.
Proof. induction 1; simpl; congruence. Qed.

(** X5. Whatever the store answers, one record costs between one and three
    remote calls and nothing else; at most one of them is an update, and an
    update is always the last call made for the record. *)
Theorem record_makes_at_most_three_calls (row : ExcelRow) (w : World Remote) :
  forallb is_remote (new_events w (snd (updateDataverseRecord row w))) = true
  /\ (1 <= length (new_events w (snd (updateDataverseRecord row w))) <= 3)%nat
  /\ (filter is_update (new_events w (snd (updateDataverseRecord row w))) = []
      \/ exists before u,
           new_events w (snd (updateDataverseRecord row w)) = before ++ [u]
           /\ is_update u = true /\ filter is_update before = []).
Proof.
  destruct (updateDataverseRecord_trace row w) as (r & w' & evs & Hrun & _ & Htr & Hrec).
  rewrite Hrun. cbn [snd]. rewrite (events_added _ _ _ Htr).
  split; [exact (RecordTrace_remote _ _ _ Hrec) | exact (RecordTrace_budget _ _ _ Hrec)].
Qed.

(** X6. Every update call made during a batch goes to the singular
    collection name and carries the payload built from one of the records:
    it is never empty, and each of its fields is one of the two attributes
    with a non-empty text free of surrounding white space. *)
Theorem updates_send_only_filled_fields
        (w : World Remote) (entityType id : string) (data : UpdateData)
        (settled : JsError + unit) :
  In (EvUpdate entityType id data settled)
     (new_events w (snd (processDataverseUpdates w))) ->
  entityType = ALTERNATE
  /\ data <> []
  /\ (exists row, In row (_parsedData w) /\ data = build_updateData row)
  /\ Forall filled_field data.
Proof.
  destruct (_parsedData w) as [ | row0 rest] eqn:Epd.
  - rewrite (processDataverseUpdates_empty w Epd). cbn [snd].
    erewrite events_added; [ | cbn [trace]; reflexivity].
    intros [H | [H | []]]; discriminate H.
  - destruct (processDataverseUpdates_trace w)
      as (results & w' & evs & Hrun & _ & Htr & Hbatch); [congruence|].
    rewrite Hrun. cbn [snd]. rewrite (events_added _ _ _ Htr). rewrite Epd in Hbatch.
    intros Hin. apply in_app_or in Hin as [Hin | Hin].
    + destruct (BatchTrace_updates _ _ _ _ _ Hbatch _ Hin eq_refl)
        as (row & Hrow & Hent & Hdata & Hne).
      subst data. and_split; eauto. apply build_updateData_fields.
    + exfalso. unfold closing_events in Hin.
      destruct (0 <? length (filter (fun r => success r) results))%nat;
        cbn [In] in Hin;
        repeat (destruct Hin as [Hin | Hin]; [discriminate Hin | ]); destruct Hin.
Qed.

(** X7. A record's outcome carries the record's ID, and it is a success
    exactly when an update call was made for it and settled successfully. *)
Theorem record_succeeds_iff_update_settled (row : ExcelRow) (w : World Remote) :
  exists r,
    fst (updateDataverseRecord row w) = inr r
    /\ recordId r = ID row
    /\ (success r = true <->
        exists entityType id data,
          In (EvUpdate entityType id data (inr tt))
             (new_events w (snd (updateDataverseRecord row w)))).
Proof.
  destruct (updateDataverseRecord_trace row w) as (r & w' & evs & Hrun & _ & Htr & Hrec).
  exists r. rewrite Hrun. cbn [fst snd]. rewrite (events_added _ _ _ Htr).
  split; [reflexivity | exact (RecordTrace_success _ _ _ Hrec)].
Qed.

(** X8. When the filtered lookup on the primary collection resolves, it is
    the only lookup made for the record: the alternate collection name is
    tried on a rejection only, not on an empty result.  A missing response
    or one without entities gives the "Record not found" outcome after that
    single call. *)
Theorem resolved_primary_lookup_is_final
        (row : ExcelRow) (w : World Remote)
        (response : option RetrieveMultipleResponse) (s1 : Remote) :
  webAPI_retrieveMultipleRecords PRIMARY (query1 (trim (ID row))) (remote w)
  = (inr response, s1) ->
  filter is_retrieve (new_events w (snd (updateDataverseRecord row w)))
  = [EvRetrieve PRIMARY (query1 (trim (ID row))) (inr response)]
  /\ ((response = None \/ exists r, response = Some r /\ entities r = []) ->
      updateDataverseRecord row w
      = (inr {| success := false; recordId := ID row;
                error := Some ("Record not found: '" ++ trim (ID row) ++ "'")%string |},
         {| remote := s1; _parsedData := _parsedData w;
            trace := trace w ++ [EvRetrieve PRIMARY (query1 (trim (ID row)))
                                   (inr response)] |})).
Proof.
  intros H1.
  unfold updateDataverseRecord, updateDataverseRecord_try, lookup,
    try_catch, bind, ret, retrieveMultipleRecords.
  rewrite H1. cbn [remote trace _parsedData].
  destruct response as [r | ].
  - destruct (entities r) as [ | existingRecord others] eqn:Eent.
    + cbn [snd]. erewrite events_added; [ | cbn [trace]; reflexivity].
      split; reflexivity.
    + destruct (length (build_updateData row) =? 0)%nat.
      * cbn [snd]. erewrite events_added; [ | cbn [trace]; reflexivity].
        split; [reflexivity|].
        intros [H | (r' & [= <-] & H)]; [discriminate | congruence].
      * unfold updateRecord. cbn [remote trace _parsedData]. answer_update;
          (cbn [snd]; erewrite events_added;
           [ | cbn [trace]; rewrite <- !app_assoc; reflexivity];
           split; [reflexivity|];
           intros [H | (r' & [= <-] & H)]; [discriminate | congruence]).
  - cbn [snd]. erewrite events_added; [ | cbn [trace]; reflexivity].
    split; reflexivity.
Qed.

(** X9. When both filtered lookups are rejected, exactly one more call is
    made, the unfiltered probe of the primary collection, and no update:
    if the probe resolves the record is reported as not found in the
    entity, if it is rejected too the outcome is an entity access error
    carrying the probe's error message. *)
Theorem probe_tells_missing_from_inaccessible
        (row : ExcelRow) (w : World Remote) (error1 error2 : JsError) (s1 s2 : Remote) :
  webAPI_retrieveMultipleRecords PRIMARY (query1 (trim (ID row))) (remote w)
  = (inl error1, s1) ->
  webAPI_retrieveMultipleRecords ALTERNATE (query1 (trim (ID row))) s1
  = (inl error2, s2) ->
  new_events w (snd (updateDataverseRecord row w))
  = [EvRetrieve PRIMARY (query1 (trim (ID row))) (inl error1);
     EvRetrieve ALTERNATE (query1 (trim (ID row))) (inl error2);
     EvRetrieve PRIMARY query3 (fst (webAPI_retrieveMultipleRecords PRIMARY query3 s2))]
  /\ fst (updateDataverseRecord row w)
     = inr (match fst (webAPI_retrieveMultipleRecords PRIMARY query3 s2) with
            | inr _ =>
                {| success := false; recordId := ID row;
                   error := Some ("Record '" ++ trim (ID row)
                                  ++ "' not found in entity")%string |}
            | inl error3 =>
                {| success := false; recordId := ID row;
                   error := Some ("Entity access error: "
                                  ++ or_else (message error3) "Unknown error")%string |}
            end).
Proof.
  intros H1 H2.
  unfold updateDataverseRecord, updateDataverseRecord_try, lookup,
    try_catch, bind, ret, retrieveMultipleRecords.
  rewrite H1. cbn [remote trace _parsedData]. rewrite H2.
  cbn [remote trace _parsedData].
  destruct (webAPI_retrieveMultipleRecords PRIMARY query3 s2) as [[error3 | test] s3];
    cbn [fst snd]; (erewrite events_added;
                    [ | cbn [trace]; rewrite <- !app_assoc; reflexivity]);
    split; reflexivity.
Qed.

(** X10. An update call that is rejected does not escape the record: the
    outcome is the "Update failed" failure carrying the message of the
    error (or, without a message, its string form). *)
Theorem rejected_update_is_reported
        (row : ExcelRow) (w : World Remote) (entityType id : string)
        (data : UpdateData) (e : JsError) :
  In (EvUpdate entityType id data (inl e))
     (new_events w (snd (updateDataverseRecord row w))) ->
  fst (updateDataverseRecord row w)
  = inr {| success := false; recordId := ID row;
           error := Some ("Update failed: "
                          ++ or_else (message e)
                               (or_else (Some (toStr e)) "Unknown error"))%string |}.
Proof.
  destruct (updateDataverseRecord_trace row w) as (r & w' & evs & Hrun & _ & Htr & Hrec).
  rewrite Hrun. cbn [fst snd]. rewrite (events_added _ _ _ Htr).
  intros Hin. f_equal. exact (RecordTrace_rejected _ _ _ _ _ _ _ Hrec Hin).
Qed.

(** X11. A non-empty batch shows its results exactly once, after the last
    record: the number of successes plus the number of failures is the
    number of records, and the failures listed are the failed outcomes in
    input order. *)
Theorem summary_counts_add_up (w : World Remote) :
  _parsedData w <> [] ->
  exists results,
    fst (processDataverseUpdates w) = inr results
    /\ filter is_results (new_events w (snd (processDataverseUpdates w)))
       = [EvModalResults (length (filter (fun r => success r) results))
                         (length (filter (fun r => negb (success r)) results))
                         (filter (fun r => negb (success r)) results)]
    /\ (length (filter (fun r => success r) results)
        + length (filter (fun r => negb (success r)) results)
        = length (_parsedData w))%nat.
Proof.
  intros Hne.
  destruct (processDataverseUpdates_trace w Hne)
    as (results & w' & evs & Hrun & _ & Htr & Hbatch).
  exists results. rewrite Hrun. cbn [fst snd]. rewrite (events_added _ _ _ Htr).
  and_split; [reflexivity | | ].
  - rewrite filter_app, (BatchTrace_results _ _ _ _ _ Hbatch). unfold closing_events.
    now destruct (0 <? length (filter (fun r => success r) results))%nat.
  - rewrite filter_length. exact (BatchTrace_length _ _ _ _ _ Hbatch).
Qed.

(** X12. [uploadAndProcessFile] never throws, and it reaches the store only
    when a file was given, was decoded, and yielded at least one record. *)
Theorem upload_never_throws (file : option (Exc.t (list Row))) (w : World Remote) :
  fst (uploadAndProcessFile file w) = inr tt
  /\ (filter is_remote (new_events w (snd (uploadAndProcessFile file w))) <> [] ->
      exists jsonData records,
        file = Some (inr jsonData)
        /\ parseExcelData jsonData = inr records /\ records <> []).
Proof.
  unfold uploadAndProcessFile.
  destruct file as [decoded | ].
  2:{ unfold showStatus, emit. cbn [fst snd]. split; [reflexivity|].
      erewrite events_added; [ | cbn [trace]; reflexivity]. now intros H. }
  unfold bind, try_catch, lift, showModal, updateModalStatus, updateModalProgress,
    showModalFooter, set_parsedData, throw, emit, ret.
  cbn [remote _parsedData trace].
  destruct decoded as [e | jsonData].
  { cbn [fst snd]. split; [reflexivity|].
    erewrite events_added; [ | cbn [trace]; rewrite <- !app_assoc; reflexivity].
    now intros H. }
  cbn [remote _parsedData trace].
  destruct (parseExcelData jsonData) as [e | parsedData] eqn:Eparse.
  { cbn [fst snd]. split; [reflexivity|].
    erewrite events_added; [ | cbn [trace]; rewrite <- !app_assoc; reflexivity].
    now intros H. }
  cbn [remote _parsedData trace].
  destruct parsedData as [ | row rest].
  { cbn [length Nat.eqb fst snd remote _parsedData trace]. split; [reflexivity|].
    erewrite events_added; [ | cbn [trace]; rewrite <- !app_assoc; reflexivity].
    now intros H. }
  cbn [length Nat.eqb remote _parsedData trace].
  match goal with
  | |- context [processDataverseUpdates ?w0] =>
      destruct (processDataverseUpdates_trace w0)
        as (results & w' & evs & Hrun & _ & _ & _);
      [cbn [_parsedData]; discriminate | ]
  end.
  rewrite Hrun. cbn [fst snd]. split; [reflexivity|].
  intros _. exists jsonData, (row :: rest). and_split; auto. discriminate.
Qed.

(** X13. A sheet that parses to no record at all (two rows or more, none
    with an id) stops the upload with the "No valid data" error before any
    remote call; [_parsedData] has already been replaced by the empty
    list when the error is raised. *)
Theorem sheet_without_ids_clears_parsed_data (jsonData : list Row) (w : World Remote) :
  parseExcelData jsonData = inr [] ->
  uploadAndProcessFile (Some (inr jsonData)) w
  = (inr tt,
     {| remote := remote w; _parsedData := [];
        trace := trace w ++
          [EvShowModal;
           EvModalStatus "Parsing Excel file..." SevInfo;
           EvModalProgress 0;
           EvModalProgress 30;
           EvModalStatus
             ("Error: " ++ toStr (new_Error
                "No valid data found in Excel file. Please check your file format."))
             SevError;
           EvModalFooter] |}).
Proof.
  intros E.
  unfold uploadAndProcessFile, bind, try_catch, lift, showModal, updateModalStatus,
    updateModalProgress, showModalFooter, set_parsedData, throw, emit, ret.
  cbn [remote _parsedData trace]. rewrite E.
  cbn [length Nat.eqb remote _parsedData trace]. rewrite <- !app_assoc. reflexivity.
Qed.

(** X14. When a sheet yields records, the upload stores them in
    [_parsedData] and looks every one of them up, in row order, by the
    filter query on its ID exactly as extracted (the engine's own trimming
    of the ID changes nothing). *)
Theorem upload_looks_up_every_extracted_id
        (jsonData : list Row) (records : list ExcelRow) (w : World Remote) :
  parseExcelData jsonData = inr records ->
  records <> [] ->
  _parsedData (snd (uploadAndProcessFile (Some (inr jsonData)) w)) = records
  /\ primary_lookups (new_events w (snd (uploadAndProcessFile (Some (inr jsonData)) w)))
     = map (fun r => query1 (ID r)) records.
Proof.
  intros Eparse Hne.
  pose proof (parseExcelData_clean _ _ Eparse) as Hclean.
  unfold uploadAndProcessFile, bind, try_catch, lift, showModal, updateModalStatus,
    updateModalProgress, showModalFooter, set_parsedData, throw, emit, ret.
  cbn [remote _parsedData trace]. rewrite Eparse.
  cbn [remote _parsedData trace].
  destruct records as [ | row rest]; [congruence|].
  cbn [length Nat.eqb remote _parsedData trace].
  match goal with
  | |- context [processDataverseUpdates ?w0] =>
      destruct (processDataverseUpdates_spec w0)
        as (results & w' & evs & Hrun & _ & Hpd & Htr & _ & Hlks);
      [cbn [_parsedData]; discriminate | ]
  end.
  cbn [remote _parsedData trace] in *.
  rewrite Hrun. cbn [snd]. split; [exact Hpd|].
  erewrite events_added; [ | rewrite Htr; rewrite <- !app_assoc; reflexivity].
  cbn [app primary_lookups flat_map].
  change (flat_map _ (evs ++ closing_events results))
    with (primary_lookups (evs ++ closing_events results)).
  rewrite primary_lookups_app, Hlks.
  replace (primary_lookups (closing_events results)) with (@nil string).
  - rewrite app_nil_r. apply map_ext_in. intros r Hr.
    rewrite Forall_forall in Hclean. destruct (Hclean r Hr) as (_ & -> & _). reflexivity.
  - unfold closing_events.
    now destruct (0 <? length (filter (fun r => success r) results))%nat.
Qed.

End EngineMore.

(* ===================================================================== *)
(** ** The second copy of the class *)
(* ===================================================================== *)

Lemma second_parseRows_app (rows : list Row) (parsedData : list ExcelRow) :
  SecondCopy.parseRows rows parsedData = parsedData ++ SecondCopy.parseRows rows [].
Proof.
  revert parsedData. induction rows as [ | row rest IH]; intros parsedData.
  - simpl. now rewrite app_nil_r.
  - simpl. rewrite (IH (SecondCopy.parseRow row parsedData)),
             (IH (SecondCopy.parseRow row [])).
    unfold SecondCopy.parseRow. destruct (SecondCopy.long_enough row).
    + now rewrite <- app_assoc.
    + reflexivity.
Qed.

Lemma second_parseRows_length (rows : list Row) :
  length (SecondCopy.parseRows rows []) = length (filter SecondCopy.long_enough rows).
Proof.
  induction rows as [ | row rest IH]; [reflexivity|].
  simpl. rewrite second_parseRows_app, length_app.
  unfold SecondCopy.parseRow. destruct (SecondCopy.long_enough row); simpl; now rewrite IH.
Qed.

(** X15. The second copy keeps one record for every data row that has at
    least three cells (or is a string of at least three characters), with
    no test on the id: a row with a blank first cell is kept too. *)
Theorem second_copy_keeps_every_long_row (jsonData : list Row) (records : list ExcelRow) :
  SecondCopy.parseExcelData jsonData = inr records ->
  length records = length (filter SecondCopy.long_enough (skipn 1 jsonData)).
Proof.
  unfold SecondCopy.parseExcelData. destruct (length jsonData <? 2)%nat; [discriminate|].
  intros [= <-]. apply second_parseRows_length.
Qed.

Lemma second_copy_keeps_every_long_row_witness :
  length [ {| ID := ""; Response := "x"; Notes := "" |} ]
  = length (filter SecondCopy.long_enough
              (skipn 1 [RArray [CStr "ID"]; RArray [CStr ""; CStr "q"; CStr "x"];
                        RArray [CStr "A2"; CStr "y"]])).
Proof.
  apply (second_copy_keeps_every_long_row
           [RArray [CStr "ID"]; RArray [CStr ""; CStr "q"; CStr "x"];
            RArray [CStr "A2"; CStr "y"]]).
  reflexivity.
Defined.

Lemma second_parseRow_column_1 (row row' : Row) (parsedData : list ExcelRow) :
  same_but_column_1 row row' ->
  SecondCopy.parseRow row parsedData = SecondCopy.parseRow row' parsedData.
Proof. intros [c0 c1 c1' rest | r]; reflexivity. Qed.

(** X16. The second copy never reads column 1: changing the cells of
    column 1 (and the header row) leaves the extracted records unchanged. *)
Theorem second_copy_never_reads_column_1
        (header header' : Row) (rows rows' : list Row) :
  Forall2 same_but_column_1 rows rows' ->
  SecondCopy.parseExcelData (header :: rows) = SecondCopy.parseExcelData (header' :: rows').
Proof.
  intros H. unfold SecondCopy.parseExcelData.
  cbn [length skipn]. rewrite <- (Forall2_length H). f_equal.
  destruct (S (length rows) <? 2)%nat; [reflexivity|]. f_equal.
  generalize (@nil ExcelRow).
  induction H as [ | row row' rest rest' Hrow _ IH]; intros parsedData; [reflexivity|].
  simpl. rewrite (second_parseRow_column_1 _ _ _ Hrow). apply IH.
Qed.

Lemma second_copy_never_reads_column_1_witness :
  SecondCopy.parseExcelData
    (RArray [CStr "ID"] :: [RArray [CStr "A1"; CStr "old"; CStr "R"; CStr "N"]])
  = SecondCopy.parseExcelData
      (RArray [] :: [RArray [CStr "A1"; CNum 5; CStr "R"; CStr "N"]]).
Proof.
  apply second_copy_never_reads_column_1. repeat constructor.
Defined.

Section SecondCopyFacts.

Import SecondCopyEngine.

Context {Remote : Type} {webAPI : WebApi Remote}.

Ltac and_split := repeat match goal with |- _ /\ _ => split end.

Lemma second_events_added (w w' : World Remote) (evs : list Event) :
  trace w' = trace w ++ evs -> new_events w w' = evs.
Proof.
  unfold new_events. intros ->.
  rewrite skipn_app, skipn_all, Nat.sub_diag. reflexivity.
Qed.

Lemma second_updateDataverseRecord_spec (row : ExcelRow) (w : World Remote) :
  exists r w' calls,
    updateDataverseRecord row w = (inr r, w')
    /\ recordId r = ID row
    /\ _parsedData w' = _parsedData w
    /\ trace w' = trace w ++ calls
    /\ forallb is_remote calls = true
    /\ (1 <= length calls <= 2)%nat
    /\ Forall (second_copy_call row) calls.
Proof.
  unfold updateDataverseRecord, try_catch, bind, ret, throw, retrieveMultipleRecords.
  destruct (webAPI_retrieveMultipleRecords ALTERNATE (query row) (remote w))
    as [[e | [response | ]] s1]; cbn [remote trace _parsedData].
  - do 3 eexists. split; [reflexivity|]. cbn [remote trace _parsedData recordId].
    and_split; try reflexivity; try (simpl; lia). repeat constructor.
  - destruct (entities response) as [ | existingRecord others].
    + do 3 eexists. split; [reflexivity|]. cbn [remote trace _parsedData recordId].
      and_split; try reflexivity; try (simpl; lia). repeat constructor.
    + unfold updateRecord. cbn [remote trace _parsedData].
      destruct (webAPI_updateRecord ALTERNATE
                  (afsdc_questionresponseinstanceid existingRecord)
                  (updateData_of row) s1) as [[e | []] s2];
        do 3 eexists; (split; [reflexivity|]);
        cbn [remote trace _parsedData recordId]; rewrite <- !app_assoc; cbn [app];
        and_split; try reflexivity; try (simpl; lia); repeat constructor.
  - do 3 eexists. split; [reflexivity|]. cbn [remote trace _parsedData recordId].
    and_split; try reflexivity; try (simpl; lia). repeat constructor.
Qed.

(** X17. In the second copy one record costs one or two remote calls, all
    on the singular collection name: the lookup filters on the ID as it is
    (untrimmed), and the update always sends both fields as they are, empty
    ones included.  The call never throws and its outcome carries the ID. *)
Theorem second_copy_update_sends_both_fields (row : ExcelRow) (w : World Remote) :
  (exists r, fst (updateDataverseRecord row w) = inr r /\ recordId r = ID row)
  /\ (1 <= length (new_events w (snd (updateDataverseRecord row w))) <= 2)%nat
  /\ Forall (second_copy_call row) (new_events w (snd (updateDataverseRecord row w))).
Proof.
  destruct (second_updateDataverseRecord_spec row w)
    as (r & w' & calls & Hrun & Hid & _ & Htr & _ & Hlen & Hcalls).
  rewrite Hrun. cbn [fst snd]. rewrite (second_events_added _ _ _ Htr). eauto.
Qed.






(** X19. [uploadAndParseFile] never throws and never reaches the store; its
    progress values are a prefix of 0, 50, 100; and once a file is given,
    the last thing it does, on success and on failure alike, is to hide the
    progress bar. *)
Theorem second_copy_parse_always_hides_progress
        (file : option (Exc.t (list Row))) (w : World Remote) :
  fst (uploadAndParseFile file w) = inr tt
  /\ filter is_remote (new_events w (snd (uploadAndParseFile file w))) = []
  /\ (exists k, progress_values (new_events w (snd (uploadAndParseFile file w)))
                = firstn k [0; 50; 100]%Z)
  /\ (file <> None ->
      last (new_events w (snd (uploadAndParseFile file w))) (EvShowProgress 0)
      = EvHideProgress).
Proof.
  unfold uploadAndParseFile.
  destruct file as [decoded | ].
  2:{ unfold showStatus, emit. cbn [fst snd].
      erewrite second_events_added; [ | cbn [trace]; reflexivity].
      and_split; [reflexivity | reflexivity | now exists 0%nat | congruence]. }
  unfold displayDataPreview, bind, try_catch, lift, showStatus, showProgress,
    hideProgress, set_parsedData, get_parsedData, emit.
  cbn [remote _parsedData trace].
  destruct decoded as [e | jsonData]; cbn [remote _parsedData trace].
  { cbn [fst snd].
    erewrite second_events_added; [ | cbn [trace]; rewrite <- !app_assoc; reflexivity].
    and_split; [reflexivity | reflexivity | now exists 1%nat | intros _; reflexivity]. }
  destruct (SecondCopy.parseExcelData jsonData) as [e | parsedData];
    cbn [remote _parsedData trace fst snd];
    (erewrite second_events_added; [ | cbn [trace]; rewrite <- !app_assoc; reflexivity]);
    (and_split; [reflexivity | reflexivity | | intros _; reflexivity]);
    [now exists 2%nat | now exists 3%nat].
Qed.

(** X20. When the sheet parses, the second copy stores the records in
    [_parsedData] whatever their number (an empty result is not an error
    here), reports the count, and previews the first five records with the
    number of the remaining ones when there are more than five. *)
Theorem second_copy_parse_stores_and_previews
        (jsonData : list Row) (records : list ExcelRow) (w : World Remote) :
  SecondCopy.parseExcelData jsonData = inr records ->
  uploadAndParseFile (Some (inr jsonData)) w
  = (inr tt,
     {| remote := remote w; _parsedData := records;
        trace := trace w ++
          [EvShowStatus "Parsing Excel file..." SevInfo;
           EvShowProgress 0;
           EvShowProgress 50;
           EvShowProgress 100;
           EvShowStatus ("Successfully parsed " ++ string_of_nat (length records)
                         ++ " records") SevSuccess;
           EvDataPreview (firstn 5 records)
             (if (5 <? length records)%nat then Some (length records - 5)%nat else None);
           EvHideProgress] |}).
Proof.
  intros E.
  unfold uploadAndParseFile, displayDataPreview, bind, try_catch, lift, showStatus,
    showProgress, hideProgress, set_parsedData, get_parsedData, emit.
  cbn [remote _parsedData trace]. rewrite E.
  cbn [remote _parsedData trace]. rewrite <- !app_assoc. reflexivity.
Qed.

End SecondCopyFacts.

(* ===================================================================== *)
(** ** The properties above on sample inputs *)
(* ===================================================================== *)

Lemma target_sheet_is_first_without_hidden_flag_witness :
  targetSheetName Sample.plain_workbook = hd_error (SheetNames Sample.plain_workbook).
Proof.
  destruct (target_sheet_is_first_without_hidden_flag Sample.plain_workbook)
    as (_ & Hplain & _).
  apply Hplain. reflexivity.
Defined.

Lemma updates_send_only_filled_fields_witness :
  ALTERNATE = ALTERNATE
  /\ [("afsdc_response", "R"); ("afsdc_comments", "N")] <> []
  /\ (exists row, In row (_parsedData Demo.batch)
                  /\ [("afsdc_response", "R"); ("afsdc_comments", "N")]
                     = build_updateData row)
  /\ Forall filled_field [("afsdc_response", "R"); ("afsdc_comments", "N")].
Proof.
  apply (updates_send_only_filled_fields Demo.batch ALTERNATE "guid-A1"
           [("afsdc_response", "R"); ("afsdc_comments", "N")] (inr tt)).
  vm_compute. do 3 right. left. reflexivity.
Defined.

Lemma resolved_primary_lookup_is_final_witness :
  filter is_retrieve
    (new_events Sample.primary_without_A1
       (snd (updateDataverseRecord Sample.A1 Sample.primary_without_A1)))
  = [EvRetrieve PRIMARY (query1 (trim (ID Sample.A1)))
       (inr (Some {| entities := [] |}))]
  /\ ((Some {| entities := [] |} = None
       \/ exists r, Some {| entities := [] |} = Some r /\ entities r = []) ->
      updateDataverseRecord Sample.A1 Sample.primary_without_A1
      = (inr {| success := false; recordId := ID Sample.A1;
                error := Some ("Record not found: '" ++ trim (ID Sample.A1)
                               ++ "'")%string |},
         {| remote := remote Sample.primary_without_A1;
            _parsedData := _parsedData Sample.primary_without_A1;
            trace := trace Sample.primary_without_A1
                     ++ [EvRetrieve PRIMARY (query1 (trim (ID Sample.A1)))
                           (inr (Some {| entities := [] |}))] |})).
Proof.
  apply (resolved_primary_lookup_is_final Sample.A1 Sample.primary_without_A1).
  reflexivity.
Defined.

Lemma probe_tells_missing_from_inaccessible_witness :
  fst (updateDataverseRecord Sample.A1 Sample.offline)
  = inr {| success := false; recordId := "A1";
           error := Some "Entity access error: Forbidden" |}.
Proof.
  destruct (probe_tells_missing_from_inaccessible Sample.A1 Sample.offline
              Scripted.refused Scripted.refused
              (remote Sample.offline) (remote Sample.offline))
    as (_ & Houtcome); [reflexivity | reflexivity | ].
  exact Houtcome.
Defined.

Lemma rejected_update_is_reported_witness :
  fst (updateDataverseRecord Sample.A1 Sample.read_only)
  = inr {| success := false; recordId := ID Sample.A1;
           error := Some ("Update failed: "
                          ++ or_else (message Scripted.refused)
                               (or_else (Some (toStr Scripted.refused))
                                  "Unknown error"))%string |}.
Proof.
  apply (rejected_update_is_reported Sample.A1 Sample.read_only ALTERNATE "guid-A1"
           [("afsdc_response", "R"); ("afsdc_comments", "N")] Scripted.refused).
  vm_compute. do 2 right. left. reflexivity.
Defined.

Lemma summary_counts_add_up_witness :
  exists results,
    fst (processDataverseUpdates Demo.batch) = inr results
    /\ filter is_results (new_events Demo.batch (snd (processDataverseUpdates Demo.batch)))
       = [EvModalResults (length (filter (fun r => success r) results))
                         (length (filter (fun r => negb (success r)) results))
                         (filter (fun r => negb (success r)) results)]
    /\ (length (filter (fun r => success r) results)
        + length (filter (fun r => negb (success r)) results)
        = length (_parsedData Demo.batch))%nat.
Proof.
  apply (summary_counts_add_up Demo.batch). simpl. discriminate.
Defined.

Lemma upload_never_throws_witness :
  exists jsonData records,
    @Some (Exc.t (list Row)) (inr Demo.sheet) = Some (inr jsonData)
    /\ parseExcelData jsonData = inr records /\ records <> [].
Proof.
  destruct (upload_never_throws (Some (inr Demo.sheet)) (Demo.world ["A1"] []))
    as (_ & Hcalls).
  apply Hcalls. vm_compute. discriminate.
Defined.

Lemma sheet_without_ids_clears_parsed_data_witness :
  uploadAndProcessFile (Some (inr Sample.sheet_without_ids)) Demo.batch
  = (inr tt,
     {| remote := remote Demo.batch; _parsedData := [];
        trace := trace Demo.batch ++
          [EvShowModal;
           EvModalStatus "Parsing Excel file..." SevInfo;
           EvModalProgress 0;
           EvModalProgress 30;
           EvModalStatus
             ("Error: " ++ toStr (new_Error
                "No valid data found in Excel file. Please check your file format."))
             SevError;
           EvModalFooter] |}).
Proof.
  apply (sheet_without_ids_clears_parsed_data Sample.sheet_without_ids Demo.batch).
  reflexivity.
Defined.

Lemma upload_looks_up_every_extracted_id_witness :
  _parsedData (snd (uploadAndProcessFile (Some (inr Demo.sheet)) (Demo.world ["A1"] [])))
  = [ {| ID := "A1"; Response := "R"; Notes := "N" |};
      {| ID := "A2"; Response := ""; Notes := "" |};
      {| ID := "A3"; Response := "x"; Notes := "" |} ]
  /\ primary_lookups
       (new_events (Demo.world ["A1"] [])
          (snd (uploadAndProcessFile (Some (inr Demo.sheet)) (Demo.world ["A1"] []))))
     = map (fun r => query1 (ID r))
           [ {| ID := "A1"; Response := "R"; Notes := "N" |};
             {| ID := "A2"; Response := ""; Notes := "" |};
             {| ID := "A3"; Response := "x"; Notes := "" |} ].
Proof.
  apply (upload_looks_up_every_extracted_id Demo.sheet).
  - reflexivity.
  - discriminate.
Defined.


Lemma second_copy_parse_always_hides_progress_witness :
  last (SecondCopyEngine.new_events Sample.second_copy_idle
          (snd (SecondCopyEngine.uploadAndParseFile
                  (Some (inl Scripted.refused)) Sample.second_copy_idle)))
       (SecondCopyEngine.EvShowProgress 0)
  = SecondCopyEngine.EvHideProgress.
Proof.
  destruct (second_copy_parse_always_hides_progress
              (Some (inl Scripted.refused)) Sample.second_copy_idle)
    as (_ & _ & _ & Hlast).
  apply Hlast. discriminate.
Defined.

Lemma second_copy_parse_stores_and_previews_witness :
  SecondCopyEngine.uploadAndParseFile
    (Some (inr [RArray [CStr "ID"]; RArray [CStr "A1"]])) Sample.second_copy_idle
  = (inr tt,
     {| SecondCopyEngine.remote := SecondCopyEngine.remote Sample.second_copy_idle;
        SecondCopyEngine._parsedData := [];
        SecondCopyEngine.trace :=
          SecondCopyEngine.trace Sample.second_copy_idle ++
          [SecondCopyEngine.EvShowStatus "Parsing Excel file..." SevInfo;
           SecondCopyEngine.EvShowProgress 0;
           SecondCopyEngine.EvShowProgress 50;
           SecondCopyEngine.EvShowProgress 100;
           SecondCopyEngine.EvShowStatus
             ("Successfully parsed " ++ string_of_nat (length (@nil ExcelRow))
              ++ " records") SevSuccess;
           SecondCopyEngine.EvDataPreview (firstn 5 (@nil ExcelRow))
             (if (5 <? length (@nil ExcelRow))%nat
              then Some (length (@nil ExcelRow) - 5)%nat else None);
           SecondCopyEngine.EvHideProgress] |}).
Proof.
  apply (second_copy_parse_stores_and_previews
           [RArray [CStr "ID"]; RArray [CStr "A1"]] [] Sample.second_copy_idle).
  reflexivity.
Defined.
